(** * Beebo: the real-time orchestration engine of [beebo_prototype.py]

    A shallow embedding of the voice-assistant controller: the lifecycle
    state machine, the audio session, the wake spotter with its cooldown,
    the endpointer, the playback-to-colour synchroniser and the
    conversation context, with the properties the design document states
    about them.

    Conventions of the embedding.
    - [self] is the [BeeboPrototype] object: one record, one field per
      attribute the embedded methods read or write, under the attribute's
      name.  A method becomes a function from the object to the object
      (and a result, when it returns one).
    - Wall-clock readings ([time.time()]) and volume levels are Python
      floats; they are embedded as rationals [Q] and float arithmetic as
      exact arithmetic.  Every clock reading is an argument of the function
      that takes it.
    - What the outside world answers (the recogniser's transcript for a
      frame, whether the audio device opens, what the chat service
      returns) is an argument too.
    - [root.after], [face_window.after] and [threading.Thread(...).start()]
      do not run their target: they append it to [after_queue] or
      [threads].  A method is embedded as it runs on its own thread, with no
      other thread interleaved.
    - [log] keeps the words of the message, without the timestamp, the
      pictograph in front and the text of a caught exception. *)

From Stdlib Require Import ZArith QArith Qround Lqa Lia List Bool.
From Stdlib.Strings Require Import String Ascii Byte.
Import ListNotations.

Open Scope string_scope.
Open Scope Z_scope.

(** ** Python primitives *)

(** [x < y] on floats. *)
Definition Qltb (x y : Q) : bool := negb (Qle_bool y x).

(** [int(x)]: truncation toward zero. *)
Definition py_int (x : Q) : Z := Z.quot (Qnum x) (Zpos (Qden x)).

(** [str.isspace] on the code points below 128. *)
Definition is_space (c : ascii) : bool :=
  let n := N_of_ascii c in
  (((9 <=? n) && (n <=? 13)) || ((28 <=? n) && (n <=? 32)))%N.

(** [str.lower] on the code points below 128. *)
Definition lower_char (c : ascii) : ascii :=
  let n := N_of_ascii c in
  if ((65 <=? n) && (n <=? 90))%N then ascii_of_N (n + 32) else c.

Fixpoint py_lower (s : string) : string :=
  match s with
  | EmptyString => EmptyString
  | String c s' => String (lower_char c) (py_lower s')
  end.

Fixpoint lstrip_chars (cs : list ascii) : list ascii :=
  match cs with
  | c :: cs' => if is_space c then lstrip_chars cs' else cs
  | [] => []
  end.

(** [s.strip()] *)
Definition py_strip (s : string) : string :=
  string_of_list_ascii
    (rev (lstrip_chars (rev (lstrip_chars (list_ascii_of_string s))))).

(** [s.split()]: the maximal runs of non-whitespace characters. [cur] is the
    run being read, last character first. *)
Fixpoint split_chars (cs cur : list ascii) : list string :=
  match cs with
  | [] =>
      match cur with
      | [] => []
      | _ => [string_of_list_ascii (rev cur)]
      end
  | c :: cs' =>
      if is_space c then
        match cur with
        | [] => split_chars cs' []
        | _ => string_of_list_ascii (rev cur) :: split_chars cs' []
        end
      else split_chars cs' (c :: cur)
  end.

Definition py_split (s : string) : list string :=
  split_chars (list_ascii_of_string s) [].

(** [len(s.split())] as a Python integer. *)
Definition word_count (s : string) : Z := Z.of_nat (List.length (py_split s)).

(** [needle in hay] *)
Fixpoint py_in (needle hay : string) : bool :=
  if String.prefix needle hay then true
  else match hay with
       | EmptyString => false
       | String _ hay' => py_in needle hay'
       end.

(** Truthiness of a string: [if s:]. *)
Definition truthy (s : string) : bool :=
  match s with EmptyString => false | _ => true end.

Section PySequences.
Context {A : Type}.

(** [l[i]] with Python's negative indices; [None] is [IndexError]. *)
Definition py_index (l : list A) (i : Z) : option A :=
  let n := Z.of_nat (List.length l) in
  if (0 <=? i) && (i <? n) then nth_error l (Z.to_nat i)
  else if (i <? 0) && (0 <=? n + i) then nth_error l (Z.to_nat (n + i))
  else None.

(** [l[i:]] with Python's negative start. *)
Definition py_slice_from (l : list A) (i : Z) : list A :=
  let n := Z.of_nat (List.length l) in
  if 0 <=? i then skipn (Z.to_nat i) l
  else skipn (Z.to_nat (Z.max 0 (n + i))) l.
End PySequences.

(** ** The data of the object *)

Inductive SystemState : Type :=
  | SLEEPING | WAKING_UP | STANDBY | LISTENING | PROCESSING | SPEAKING | ERROR.

(** [voice_mode]: ["off"], ["wake_word"] or ["listening"]. *)
Inductive VoiceMode : Type := vm_off | vm_wake_word | vm_listening.

(** [speaking_phase], when it is not [None]. *)
Inductive SpeakingPhase : Type :=
  | transition_to_speak | speaking | transition_to_standby.

Definition SystemState_eqb (a b : SystemState) : bool :=
  match a, b with
  | SLEEPING, SLEEPING | WAKING_UP, WAKING_UP | STANDBY, STANDBY
  | LISTENING, LISTENING | PROCESSING, PROCESSING | SPEAKING, SPEAKING
  | ERROR, ERROR => true
  | _, _ => false
  end.

Definition VoiceMode_eqb (a b : VoiceMode) : bool :=
  match a, b with
  | vm_off, vm_off | vm_wake_word, vm_wake_word
  | vm_listening, vm_listening => true
  | _, _ => false
  end.

(** A [KaldiRecognizer] made for a sample rate. Its decoding state is not
    part of the embedding: what it recognises in a frame is an input. *)
Inductive KaldiRecognizer : Type := Kaldi (sample_rate : Z).

(** A PyAudio input stream. [stop_stream()] and [close()] return normally
    on a healthy stream and raise when the device call under them fails;
    the two flags say which calls of this stream raise. *)
Record Stream : Type := mkStream {
  stop_stream_raises : bool;
  close_raises : bool
}.

(** An RGBA pixel and an image, row after row. *)
Definition Pixel : Type := (Z * Z * Z * Z)%type.
Definition Image : Type := list Pixel.

(** An entry of [context_memory]: the dict with keys [timestamp], [role]
    and [content]. *)
Record ContextEntry : Type := mkEntry {
  timestamp : string;
  role : string;
  content : string
}.

(** The closures handed to [root.after] and [face_window.after], and the
    completion callbacks of one-shot clips. *)
Inductive Callback : Type :=
  | cb_power_on
  | cb_set_state (new_state : SystemState)
  | cb_state_var_set (shown : SystemState)
  | cb_process_voice_input_current_text
      (* lambda: self.process_voice_input(self.current_input_text) *)
  | cb_speak (text : string)
  | cb_on_tts_complete
  | cb_update_speaking_colors
  | cb_on_face_off_complete
  | cb_on_speak_transition_complete
  | cb_on_speak_end_complete.

(** The targets of the threads the object starts. *)
Inductive Thread : Type :=
  | th_voice_thread
  | th_speak_thread (text : string)
  | th_process_ai_background (text : string).

(** What the face canvas shows. *)
Inductive Canvas : Type :=
  | canvas_empty
  | canvas_image (img : Image)
  | canvas_gif (gif_filename : string) (loop : bool) (callback : option Callback).

Record Beebo : Type := mkBeebo {
  (* core system state *)
  current_state : SystemState;
  previous_state : SystemState;
  wake_word_active : bool;
  (* voice system *)
  voice_thread_running : bool;
  voice_mode : VoiceMode;
  should_listen_after_wake : bool;
  (* Vosk components *)
  vosk_rec : option KaldiRecognizer;
  audio_stream : option Stream;
  mic_gain : Q;
  (* speech recognition state *)
  current_input_text : string;
  last_word_time : Q;
  word_timeout : Q;
  listening_start_time : Q;
  initial_timeout : Q;
  has_detected_speech : bool;
  beep_played : bool;
  wake_word_detected_time : Q;
  wake_word_cooldown : Q;
  (* recording for monitoring *)
  current_audio_buffer : list (list byte);
  (* AI and voice components *)
  context_memory : list ContextEntry;
  max_context_history : nat;
  pending_volume_timeline : option (list Q);
  tts_start_time : option Q;
  (* animation system *)
  current_gif : option string;
  last_activity_time : Q;
  color_animation_active : bool;
  color_start_time : Q;
  volume_timeline : list Q;
  (* speaking animation state *)
  speaking_phase : option SpeakingPhase;
  is_speaking : bool;
  return_to_listening_after_speak : bool; (* absent reads as False *)
  (* configuration *)
  config_openai_api_key : string;
  config_wake_word : string;
  (* the world around the object *)
  console : list string;                 (* messages given to [log] *)
  after_queue : list (Z * Callback);      (* delay in ms, closure *)
  threads : list Thread;                 (* threads started, in order *)
  face_canvas : Canvas;
  speaking_face_png : option Image;      (* animations/speaking_face.png *)
  stt_files : list (list byte)           (* recordings written under stt/ *)
}.

(** The object rebuilt from its own fields; a field update replaces one
    projection of this term. *)
Definition rebuild (self : Beebo) : Beebo :=
  mkBeebo (current_state self) (previous_state self) (wake_word_active self)
    (voice_thread_running self) (voice_mode self)
    (should_listen_after_wake self) (vosk_rec self) (audio_stream self)
    (mic_gain self) (current_input_text self) (last_word_time self)
    (word_timeout self) (listening_start_time self) (initial_timeout self)
    (has_detected_speech self) (beep_played self)
    (wake_word_detected_time self) (wake_word_cooldown self)
    (current_audio_buffer self) (context_memory self)
    (max_context_history self) (pending_volume_timeline self)
    (tts_start_time self) (current_gif self) (last_activity_time self)
    (color_animation_active self) (color_start_time self)
    (volume_timeline self) (speaking_phase self) (is_speaking self)
    (return_to_listening_after_speak self) (config_openai_api_key self)
    (config_wake_word self) (console self) (after_queue self) (threads self)
    (face_canvas self) (speaking_face_png self) (stt_files self).

(** [assign proj v self] builds [self] with the field [proj] set to [v]. *)
Ltac assign proj v self :=
  let whole := eval cbv [rebuild] in (rebuild self) in
  match eval pattern (proj self) in whole with
  | ?update _ => let r := eval cbv beta in (update v) in exact r
  end.

Definition with_current_state (v : SystemState) (self : Beebo) : Beebo :=
  ltac:(assign current_state v self).
Definition with_wake_word_active (v : bool) (self : Beebo) : Beebo :=
  ltac:(assign wake_word_active v self).
Definition with_previous_state (v : SystemState) (self : Beebo) : Beebo :=
  ltac:(assign previous_state v self).
Definition with_voice_thread_running (v : bool) (self : Beebo) : Beebo :=
  ltac:(assign voice_thread_running v self).
Definition with_voice_mode (v : VoiceMode) (self : Beebo) : Beebo :=
  ltac:(assign voice_mode v self).
Definition with_should_listen_after_wake (v : bool) (self : Beebo) : Beebo :=
  ltac:(assign should_listen_after_wake v self).
Definition with_vosk_rec (v : option KaldiRecognizer) (self : Beebo) : Beebo :=
  ltac:(assign vosk_rec v self).
Definition with_audio_stream (v : option Stream) (self : Beebo) : Beebo :=
  ltac:(assign audio_stream v self).
Definition with_current_input_text (v : string) (self : Beebo) : Beebo :=
  ltac:(assign current_input_text v self).
Definition with_last_word_time (v : Q) (self : Beebo) : Beebo :=
  ltac:(assign last_word_time v self).
Definition with_listening_start_time (v : Q) (self : Beebo) : Beebo :=
  ltac:(assign listening_start_time v self).
Definition with_has_detected_speech (v : bool) (self : Beebo) : Beebo :=
  ltac:(assign has_detected_speech v self).
Definition with_beep_played (v : bool) (self : Beebo) : Beebo :=
  ltac:(assign beep_played v self).
Definition with_wake_word_detected_time (v : Q) (self : Beebo) : Beebo :=
  ltac:(assign wake_word_detected_time v self).
Definition with_current_audio_buffer (v : list (list byte)) (self : Beebo)
  : Beebo := ltac:(assign current_audio_buffer v self).
Definition with_context_memory (v : list ContextEntry) (self : Beebo) : Beebo :=
  ltac:(assign context_memory v self).
Definition with_pending_volume_timeline (v : option (list Q)) (self : Beebo)
  : Beebo := ltac:(assign pending_volume_timeline v self).
Definition with_tts_start_time (v : option Q) (self : Beebo) : Beebo :=
  ltac:(assign tts_start_time v self).
Definition with_current_gif (v : option string) (self : Beebo) : Beebo :=
  ltac:(assign current_gif v self).
Definition with_last_activity_time (v : Q) (self : Beebo) : Beebo :=
  ltac:(assign last_activity_time v self).
Definition with_color_animation_active (v : bool) (self : Beebo) : Beebo :=
  ltac:(assign color_animation_active v self).
Definition with_color_start_time (v : Q) (self : Beebo) : Beebo :=
  ltac:(assign color_start_time v self).
Definition with_volume_timeline (v : list Q) (self : Beebo) : Beebo :=
  ltac:(assign volume_timeline v self).
Definition with_speaking_phase (v : option SpeakingPhase) (self : Beebo)
  : Beebo := ltac:(assign speaking_phase v self).
Definition with_is_speaking (v : bool) (self : Beebo) : Beebo :=
  ltac:(assign is_speaking v self).
Definition with_return_to_listening_after_speak (v : bool) (self : Beebo)
  : Beebo := ltac:(assign return_to_listening_after_speak v self).
Definition with_config_openai_api_key (v : string) (self : Beebo) : Beebo :=
  ltac:(assign config_openai_api_key v self).
Definition with_console (v : list string) (self : Beebo) : Beebo :=
  ltac:(assign console v self).
Definition with_after_queue (v : list (Z * Callback)) (self : Beebo) : Beebo :=
  ltac:(assign after_queue v self).
Definition with_threads (v : list Thread) (self : Beebo) : Beebo :=
  ltac:(assign threads v self).
Definition with_face_canvas (v : Canvas) (self : Beebo) : Beebo :=
  ltac:(assign face_canvas v self).
Definition with_stt_files (v : list (list byte)) (self : Beebo) : Beebo :=
  ltac:(assign stt_files v self).


(** ** Console, timers and threads *)

Definition log (message : string) (self : Beebo) : Beebo :=
  with_console (console self ++ [message]) self.

(** [root.after(ms, cb)] and [face_window.after(ms, cb)] *)
Definition after (ms : Z) (cb : Callback) (self : Beebo) : Beebo :=
  with_after_queue (after_queue self ++ [(ms, cb)]) self.

(** [threading.Thread(target=t, daemon=True).start()] *)
Definition start_thread (t : Thread) (self : Beebo) : Beebo :=
  with_threads (threads self ++ [t]) self.

(** ** AudioCaptureSession *)

(** What opening a session meets: the recogniser cannot be built, the
    device does not open, or the device gives a stream. *)
Inductive OpenOutcome : Type :=
  | recognizer_raises
  | open_raises
  | opened (s : Stream).

Definition destroy_vosk_session (self : Beebo) : Beebo :=
  match audio_stream self with
  | Some s =>
      if stop_stream_raises s then log "ERROR Destroying Vosk session" self
      else if close_raises s then log "ERROR Destroying Vosk session" self
      else with_vosk_rec None (with_audio_stream None self)
  | None => with_vosk_rec None self
  end.

Definition create_fresh_vosk_session (o : OpenOutcome) (self : Beebo)
  : bool * Beebo :=
  let self := destroy_vosk_session self in
  match o with
  | recognizer_raises => (false, log "ERROR Fresh Vosk session" self)
  | open_raises =>
      let self := with_vosk_rec (Some (Kaldi 16000)) self in
      (false, log "ERROR Fresh Vosk session" self)
  | opened s =>
      let self := with_vosk_rec (Some (Kaldi 16000)) self in
      let self := with_audio_stream (Some s) self in
      (true, with_current_audio_buffer [] self)
  end.

(** One little-endian [int16] of [np.frombuffer(..., dtype=np.int16)]. *)
Definition int16_of_bytes (lo hi : byte) : Z :=
  let u := Z.of_N (Byte.to_N lo) + 256 * Z.of_N (Byte.to_N hi) in
  if u <? 32768 then u else u - 65536.

(** [np.frombuffer(data, dtype=np.int16)]; [None] is the [ValueError] for
    a buffer that is not a whole number of samples. *)
Fixpoint frombuffer_int16 (data : list byte) : option (list Z) :=
  match data with
  | [] => Some []
  | lo :: hi :: rest =>
      option_map (cons (int16_of_bytes lo hi)) (frombuffer_int16 rest)
  | [_] => None
  end.

Definition byte_of_Z (z : Z) : byte :=
  match Byte.of_N (Z.to_N (z mod 256)) with
  | Some b => b
  | None => x00
  end.

(** The two bytes of an [int16] in [tobytes()]. *)
Definition int16_tobytes (v : Z) : list byte :=
  let u := v mod 65536 in [byte_of_Z (u mod 256); byte_of_Z (u / 256)].

(** [np.clip(x, lo, hi)] *)
Definition np_clip (x lo hi : Q) : Q :=
  if Qltb x lo then lo else if Qltb hi x then hi else x.

(** [x.astype(np.int16)]: the fraction is dropped and the integer is kept
    modulo 2^16, as the C conversion does on the supported machines. *)
Definition astype_int16 (x : Q) : Z :=
  (py_int x + 32768) mod 65536 - 32768.

Definition apply_software_gain (audio_data : list byte) (gain_multiplier : Q)
    (self : Beebo) : list byte * Beebo :=
  match frombuffer_int16 audio_data with
  | Some audio_array =>
      let amplified := map (fun s => inject_Z s * gain_multiplier)%Q audio_array in
      let amplified :=
        map (fun x => np_clip x (inject_Z (-32768)) (inject_Z 32767)) amplified in
      (flat_map int16_tobytes (map astype_int16 amplified), self)
  | None => (audio_data, log "ERROR Software gain" self)
  end.

Definition save_recorded_audio (self : Beebo) : Beebo :=
  match current_audio_buffer self with
  | [] => self
  | _ =>
      let combined_audio := List.concat (current_audio_buffer self) in
      let self := with_stt_files (stt_files self ++ [combined_audio]) self in
      log "Audio saved" self
  end.

(** ** LifecycleStateMachine *)

Definition start_voice_thread (self : Beebo) : Beebo :=
  if voice_thread_running self then self
  else start_thread th_voice_thread (with_voice_thread_running true self).

Definition set_voice_mode (mode : VoiceMode) (self : Beebo) : Beebo :=
  let self := with_voice_mode mode self in
  if negb (VoiceMode_eqb mode vm_off) && negb (voice_thread_running self)
  then start_voice_thread self
  else self.

Definition stop_voice_system (self : Beebo) : Beebo :=
  destroy_vosk_session (with_voice_mode vm_off self).

(** [set_state]; [now] is the clock read for the activity timer. The
    control panel's [state_var] and [update_system_info] are not embedded. *)
Definition set_state (now : Q) (new_state : SystemState) (self : Beebo)
  : Beebo :=
  if SystemState_eqb new_state (current_state self) then self
  else
    let self := with_previous_state (current_state self) self in
    let self := with_current_state new_state self in
    let self :=
      match new_state with
      | WAKING_UP | LISTENING | SPEAKING => with_last_activity_time now self
      | _ => self
      end in
    match new_state with
    | SLEEPING =>
        if wake_word_active self then set_voice_mode vm_wake_word self
        else stop_voice_system self
    | STANDBY =>
        if wake_word_active self then set_voice_mode vm_wake_word self
        else self
    | LISTENING => set_voice_mode vm_listening self
    | PROCESSING | SPEAKING => set_voice_mode vm_off self
    | WAKING_UP | ERROR => self
    end.

Definition power_on (now : Q) (self : Beebo) : Beebo :=
  match current_state self with
  | SLEEPING => set_state now WAKING_UP self
  | _ => self
  end.

(** [toggle_wake_word]; [checked] is what [wake_word_var.get()] returns. *)
Definition toggle_wake_word (checked : bool) (self : Beebo) : Beebo :=
  let self := with_wake_word_active checked self in
  if wake_word_active self then
    match current_state self with
    | SLEEPING | STANDBY => set_voice_mode vm_wake_word self
    | LISTENING => set_voice_mode vm_listening self
    | _ => self
    end
  else
    match voice_mode self with
    | vm_wake_word => stop_voice_system self
    | _ => self
    end.

Definition on_wake_animation_complete (now : Q) (self : Beebo) : Beebo :=
  if should_listen_after_wake self then
    let self := with_should_listen_after_wake false self in
    let self := with_current_state LISTENING self in
    let self := with_voice_mode vm_listening self in
    after 0 (cb_state_var_set LISTENING) self
  else set_state now STANDBY self.

Definition start_manual_listening (now : Q) (self : Beebo) : Beebo :=
  match current_state self with
  | SLEEPING => self
  | _ => if is_speaking self then self else set_state now LISTENING self
  end.

Definition stop_listening (now : Q) (self : Beebo) : Beebo :=
  match current_state self with
  | LISTENING | PROCESSING => set_state now STANDBY (destroy_vosk_session self)
  | _ => self
  end.

(** ** WakeSpotter *)

Definition _trigger_wake_response (self : Beebo) : Beebo :=
  match current_state self with
  | SLEEPING =>
      let self := with_should_listen_after_wake true self in
      after 0 cb_power_on self
  | STANDBY =>
      let self := with_current_state LISTENING self in
      let self := with_voice_mode vm_listening self in
      after 0 (cb_state_var_set LISTENING) self
  | _ => self
  end.

(** [_check_wake_word]; [current_time] is the clock read when the phrase is
    found in [text]. *)
Definition _check_wake_word (text : string) (current_time : Q) (self : Beebo)
  : bool * Beebo :=
  let wake_word := py_lower (config_wake_word self) in
  if py_in wake_word text then
    if Qltb (current_time - wake_word_detected_time self)
            (wake_word_cooldown self)
    then (false, self)
    else
      let self := with_wake_word_detected_time current_time self in
      let self :=
        log ("Wake word '" ++ wake_word ++ "' detected: '" ++ text ++ "'") self in
      (true, _trigger_wake_response self)
  else (false, self).

(** What the recogniser answers for one frame: [Result()] after
    [AcceptWaveform] returned true, [PartialResult()] otherwise. The string
    is the ['text'] or ['partial'] entry, [""] when it is missing. *)
Inductive Recognition : Type :=
  | final_result (text : string)
  | partial_result (partial : string).

(** One read of 512 samples: the device raises, or gives the bytes that the
    recogniser then answers. *)
Inductive ReadOutcome : Type :=
  | read_raises
  | read_returns (data : list byte) (answer : Recognition).

(** One turn of the wake-word loop: the read, the clock
    [_check_wake_word] reads, and what reopening the session meets if the
    read raised. *)
Record WakeFrame : Type := mkWakeFrame {
  wake_heard : ReadOutcome;
  wake_clock : Q;
  wake_reopen : OpenOutcome
}.

(** How far a worker loop got on the frames given: it left the loop, or it
    used every frame and is waiting in the next read. *)
Inductive LoopExit : Type := loop_left | loop_waiting.

(** The [while] of [_handle_wake_word_detection]. Both ways out of it, the
    [return] after an accepted wake word and the end of the loop, destroy
    the session next; the method does that. *)
Fixpoint wake_word_loop (frames : list WakeFrame) (self : Beebo)
  : LoopExit * Beebo :=
  let in_state :=
    match current_state self with SLEEPING | STANDBY => true | _ => false end in
  if negb (in_state && VoiceMode_eqb (voice_mode self) vm_wake_word)
  then (loop_left, self)
  else
    match frames with
    | [] => (loop_waiting, self)
    | f :: rest =>
        let reopen (self : Beebo) :=
          snd (create_fresh_vosk_session (wake_reopen f) self) in
        match audio_stream self, wake_heard f with
        | Some _, read_returns data answer =>
            let (processed_data, self) :=
              apply_software_gain data (mic_gain self) self in
            match vosk_rec self with
            | Some _ =>
                let text :=
                  match answer with
                  | final_result text => py_strip (py_lower text)
                  | partial_result partial => py_strip (py_lower partial)
                  end in
                if truthy text then
                  let (hit, self) :=
                    _check_wake_word text (wake_clock f) self in
                  if hit then (loop_left, self) else wake_word_loop rest self
                else wake_word_loop rest self
            | None => wake_word_loop rest (reopen self)
            end
        | _, _ => wake_word_loop rest (reopen self)
        end
    end.

Definition _handle_wake_word_detection (o : OpenOutcome)
    (frames : list WakeFrame) (self : Beebo) : LoopExit * Beebo :=
  match current_state self with
  | SLEEPING | STANDBY =>
      let (ok, self) := create_fresh_vosk_session o self in
      if negb ok then (loop_left, self)
      else
        match wake_word_loop frames self with
        | (loop_left, self) => (loop_left, destroy_vosk_session self)
        | (loop_waiting, self) => (loop_waiting, self)
        end
  | _ => (loop_left, self)
  end.

(** ** Endpointer *)

Definition _process_partial_speech (partial_text : string) (current_time : Q)
    (self : Beebo) : Beebo :=
  if truthy partial_text then
    let self :=
      if negb (has_detected_speech self) then
        log "Speech detected..." (with_has_detected_speech true self)
      else self in
    if word_count (current_input_text self) <? word_count partial_text then
      let self := with_current_input_text partial_text self in
      with_last_word_time current_time self
    else self
  else self.

Definition _process_final_speech (final_text : string) (self : Beebo)
  : Beebo :=
  if truthy final_text then
    let self :=
      if word_count (current_input_text self) <? word_count final_text
      then with_current_input_text final_text self
      else self in
    let self :=
      log ("Recognized: '" ++ current_input_text self ++ "'") self in
    let self := after 0 (cb_set_state PROCESSING) self in
    after 0 cb_process_voice_input_current_text self
  else after 0 (cb_set_state STANDBY) self.

Definition _check_speech_timeouts (current_time : Q) (self : Beebo)
  : bool * Beebo :=
  if negb (has_detected_speech self) then
    if Qltb (initial_timeout self) (current_time - listening_start_time self)
    then
      let self := log "Timeout - no speech detected" self in
      (true, after 0 (cb_set_state STANDBY) self)
    else (false, self)
  else
    if Qltb (word_timeout self) (current_time - last_word_time self) then
      if truthy (py_strip (current_input_text self)) then
        let self :=
          log ("Word timeout - submitting: '" ++ current_input_text self ++ "'")
              self in
        let self := after 0 (cb_set_state PROCESSING) self in
        (true, after 0 cb_process_voice_input_current_text self)
      else (true, after 0 (cb_set_state STANDBY) self)
    else (false, self).

(** One turn of the listening loop: the clock read at its top and the
    read that follows. *)
Record ListenFrame : Type := mkListenFrame {
  listen_clock : Q;
  listen_heard : ReadOutcome
}.

(** The body of the [while] of [_handle_speech_recognition]; the [bool]
    is [true] when the body ends in [break]. *)
Definition listening_turn (f : ListenFrame) (self : Beebo) : bool * Beebo :=
  let current_time := listen_clock f in
  match audio_stream self, listen_heard f with
  | Some _, read_returns data answer =>
      let (processed_data, self) :=
        apply_software_gain data (mic_gain self) self in
      let self :=
        with_current_audio_buffer
          (current_audio_buffer self ++ [processed_data]) self in
      match vosk_rec self with
      | Some _ =>
          match answer with
          | final_result text =>
              let final_text := py_strip text in
              if truthy final_text
              then (true, _process_final_speech final_text self)
              else _check_speech_timeouts current_time self
          | partial_result partial =>
              let partial_text := py_strip partial in
              let self :=
                if truthy partial_text
                then _process_partial_speech partial_text current_time self
                else self in
              _check_speech_timeouts current_time self
          end
      | None => _check_speech_timeouts current_time self
      end
  | _, _ => _check_speech_timeouts current_time self
  end.

Fixpoint listening_loop (frames : list ListenFrame) (self : Beebo)
  : LoopExit * Beebo :=
  match current_state self with
  | LISTENING =>
      match frames with
      | [] => (loop_waiting, self)
      | f :: rest =>
          let (stop, self) := listening_turn f self in
          if stop then (loop_left, self) else listening_loop rest self
      end
  | _ => (loop_left, self)
  end.

(** [_handle_speech_recognition]. [t_start] and [t_word] are the two clock
    readings at entry. The [finally] block runs when the method is left,
    not while the loop waits for a frame. The beep is not embedded. *)
Definition _handle_speech_recognition (o : OpenOutcome) (t_start t_word : Q)
    (frames : list ListenFrame) (self : Beebo) : LoopExit * Beebo :=
  let finally (self : Beebo) :=
    destroy_vosk_session (save_recorded_audio self) in
  match current_state self with
  | LISTENING =>
      let (ok, self) := create_fresh_vosk_session o self in
      if negb ok then
        (loop_left, finally (after 0 (cb_set_state STANDBY) self))
      else
        let self := with_current_input_text "" self in
        let self := with_has_detected_speech false self in
        let self := with_listening_start_time t_start self in
        let self := with_last_word_time t_word self in
        let self := with_beep_played false self in
        let self := with_beep_played true self in
        let self := log "Listening for speech..." self in
        match listening_loop frames self with
        | (loop_left, self) => (loop_left, finally self)
        | (loop_waiting, self) => (loop_waiting, self)
        end
  | _ => (loop_left, finally self)
  end.

(** What one pass of the [while] of [_voice_thread] is given. *)
Record VoiceInputs : Type := mkVoiceInputs {
  session_open : OpenOutcome;
  wake_frames : list WakeFrame;
  listen_start_clock : Q;
  listen_word_clock : Q;
  listen_frames : list ListenFrame
}.

(** One pass of the [while] of [_voice_thread], under [voice_lock]. *)
Definition _voice_thread_pass (w : VoiceInputs) (self : Beebo)
  : LoopExit * Beebo :=
  match voice_mode self with
  | vm_wake_word =>
      _handle_wake_word_detection (session_open w) (wake_frames w) self
  | vm_listening =>
      match _handle_speech_recognition (session_open w)
              (listen_start_clock w) (listen_word_clock w)
              (listen_frames w) self with
      | (loop_left, self) => (loop_left, with_voice_mode vm_wake_word self)
      | (loop_waiting, self) => (loop_waiting, self)
      end
  | vm_off => (loop_left, self)
  end.

(** ** AnimationScheduler and speech output *)

(** [play_gif]: the clip is taken to load with at least one frame; the
    stepping of its frames is not embedded. *)
Definition play_gif (gif_filename : string) (loop : bool)
    (callback : option Callback) (self : Beebo) : Beebo :=
  if match current_gif self with
     | Some g => String.eqb g gif_filename
     | None => false
     end && loop
  then self
  else
    let self := with_current_gif (Some gif_filename) self in
    with_face_canvas (canvas_gif gif_filename loop callback) self.

Definition power_off (self : Beebo) : Beebo :=
  match current_state self with
  | SLEEPING => self
  | _ =>
      let self := stop_voice_system self in
      let self := with_speaking_phase None self in
      let self := with_is_speaking false self in
      play_gif "face_off.gif" false (Some cb_on_face_off_complete) self
  end.

Definition speak (now : Q) (text : string) (self : Beebo) : Beebo :=
  if is_speaking self then self
  else
    let self := with_is_speaking true self in
    let self := with_speaking_phase (Some transition_to_speak) self in
    let self := with_return_to_listening_after_speak false self in
    let self := set_state now SPEAKING self in
    let self := log ("TTS Output: " ++ text) self in
    start_thread (th_speak_thread text) self.

Definition speak_and_return_to_listening (now : Q) (text : string)
    (self : Beebo) : Beebo :=
  if is_speaking self then self
  else
    let self := with_is_speaking true self in
    let self := with_speaking_phase (Some transition_to_speak) self in
    let self := with_return_to_listening_after_speak true self in
    let self := set_state now SPEAKING self in
    let self := log ("TTS Output (return to listening): " ++ text) self in
    start_thread (th_speak_thread text) self.

Definition _on_tts_complete (now : Q) (self : Beebo) : Beebo :=
  let self := with_color_animation_active false self in
  match speaking_phase self with
  | Some speaking => with_speaking_phase (Some transition_to_standby) self
  | _ =>
      let self := with_is_speaking false self in
      if return_to_listening_after_speak self then
        let self := with_return_to_listening_after_speak false self in
        set_state now LISTENING self
      else set_state now STANDBY self
  end.

Definition on_speak_end_complete (now : Q) (self : Beebo) : Beebo :=
  let self := with_speaking_phase None self in
  let self := with_is_speaking false self in
  if return_to_listening_after_speak self then
    let self := with_return_to_listening_after_speak false self in
    set_state now LISTENING self
  else set_state now STANDBY self.

(** ** PlaybackSynchronizer *)

Definition base_color : Z * Z * Z := (99, 155, 255).
Definition peak_color : Z * Z * Z := (95, 205, 220).

(** One channel of the interpolation in [apply_volume_color]. *)
Definition interpolate (base peak : Z) (volume_level : Q) : Z :=
  py_int (inject_Z base + (inject_Z peak - inject_Z base) * volume_level)%Q.

(** [target_color] of [apply_volume_color]. *)
Definition target_color (volume_level : Q) : Z * Z * Z :=
  let '(br, bg, bb) := base_color in
  let '(pr, pg, pb) := peak_color in
  (interpolate br pr volume_level,
   interpolate bg pg volume_level,
   interpolate bb pb volume_level).

(** [apply_volume_color]: every visible pixel whose blue channel dominates
    takes the target colour and keeps its alpha. *)
Definition apply_volume_color (image : Image) (volume_level : Q) : Image :=
  let '(r, g, b) := target_color volume_level in
  map (fun pixel : Pixel =>
         let '(p0, p1, p2, p3) := pixel in
         if (0 <? p3) && ((p0 <? p2) && (p1 <? p2)) then (r, g, b, p3)
         else pixel)
      image.

(** [display_speaking_face]: the picture file is [speaking_face_png], already
    128 by 128. *)
Definition display_speaking_face (self : Beebo) : Beebo :=
  match speaking_face_png self with
  | Some image =>
      let self := with_face_canvas (canvas_image image) self in
      with_current_gif (Some "speaking_face") self
  | None => play_gif "standby_face.gif" true None self
  end.

Definition display_speaking_face_with_color (volume_level : Q) (self : Beebo)
  : Beebo :=
  match speaking_face_png self with
  | Some image =>
      let colored_image := apply_volume_color image volume_level in
      with_face_canvas (canvas_image colored_image) self
  | None => play_gif "standby_face.gif" true None self
  end.

(** The 50 ms of one volume sample. *)
Definition segment : Q := 5 # 100.

(** [update_speaking_colors]; [now] is the clock it reads. *)
Definition update_speaking_colors (now : Q) (self : Beebo) : Beebo :=
  if negb (color_animation_active self)
     || negb (SystemState_eqb (current_state self) SPEAKING)
     || match speaking_phase self with Some speaking => false | _ => true end
  then with_color_animation_active false self
  else
    let elapsed_time := (now - color_start_time self)%Q in
    let segment_index := py_int (elapsed_time / segment) in
    if segment_index <? Z.of_nat (List.length (volume_timeline self)) then
      match py_index (volume_timeline self) segment_index with
      | Some current_volume =>
          let self := display_speaking_face_with_color current_volume self in
          if match speaking_phase self with Some speaking => true | _ => false end
             && color_animation_active self
          then after 50 cb_update_speaking_colors self
          else with_color_animation_active false self
      | None =>
          let self := log "ERROR Color animation" self in
          with_color_animation_active false self
      end
    else with_color_animation_active false self.

(** [start_color_animation_delayed]; [t_elapsed] is the clock read for the
    time already played, [t_start] the one kept as [color_start_time] and
    [t_tick] the one the first colour update reads. *)
Definition start_color_animation_delayed (t_elapsed t_start t_tick : Q)
    (timeline : list Q) (self : Beebo) : Beebo :=
  match tts_start_time self with
  | Some started =>
      let elapsed_time := (t_elapsed - started)%Q in
      let skip_segments := py_int (elapsed_time / segment) in
      if skip_segments <? Z.of_nat (List.length timeline) then
        let adjusted_timeline := py_slice_from timeline skip_segments in
        let self := with_color_animation_active true self in
        let self := with_color_start_time t_start self in
        let self := with_volume_timeline adjusted_timeline self in
        update_speaking_colors t_tick self
      else display_speaking_face self
  | None =>
      let self := log "ERROR Color animation" self in
      display_speaking_face self
  end.

Definition current_gif_is (name : string) (self : Beebo) : bool :=
  match current_gif self with
  | Some g => String.eqb g name
  | None => false
  end.

Definition on_speak_transition_complete (t_elapsed t_start t_tick : Q)
    (self : Beebo) : Beebo :=
  match current_state self with
  | SPEAKING =>
      let self := with_speaking_phase (Some speaking) self in
      match pending_volume_timeline self with
      | Some (v :: tl) =>
          start_color_animation_delayed t_elapsed t_start t_tick (v :: tl) self
      | _ => display_speaking_face self
      end
  | _ => self
  end.

(** [handle_speaking_animation], run by the face loop every 100 ms while
    the state is SPEAKING. *)
Definition handle_speaking_animation (t_elapsed t_start t_tick : Q)
    (self : Beebo) : Beebo :=
  match speaking_phase self with
  | Some transition_to_speak =>
      if negb (current_gif_is "standby_to_speak.gif" self) then
        play_gif "standby_to_speak.gif" false
          (Some cb_on_speak_transition_complete) self
      else self
  | Some speaking =>
      match pending_volume_timeline self, color_animation_active self with
      | Some (v :: tl), false =>
          start_color_animation_delayed t_elapsed t_start t_tick (v :: tl) self
      | _, _ =>
          if negb (current_gif_is "speaking_face" self)
          then display_speaking_face self
          else self
      end
  | Some transition_to_standby =>
      if negb (current_gif_is "speak_to_standby.gif" self) then
        play_gif "speak_to_standby.gif" false (Some cb_on_speak_end_complete)
          self
      else self
  | None => self
  end.

(** ** Conversation context and the response pipeline *)

(** [add_to_context]; [stamp] is the formatted [datetime.now()]. *)
Definition add_to_context (stamp content role : string) (self : Beebo)
  : Beebo :=
  let entry := mkEntry stamp role content in
  let memory := (context_memory self ++ [entry])%list in
  let memory :=
    if (max_context_history self <? List.length memory)%nat
    then tl memory
    else memory in
  with_context_memory memory self.

(** [m[:100] + "..." if len(m) > 100 else m] *)
Definition shortened (m : string) : string :=
  if (100 <? String.length m)%nat then String.substring 0 100 m ++ "..."
  else m.

(** [summarize_message]; [answer] is what the summarising request returns,
    [None] when it raises. *)
Definition summarize_message (answer : option string)
    (message_content : string) (self : Beebo) : string * Beebo :=
  if negb (truthy (py_strip (config_openai_api_key self)))
  then (shortened message_content, self)
  else
    match answer with
    | Some summary => (py_strip summary, self)
    | None =>
        (shortened message_content, log "ERROR Summarizing message" self)
    end.

Definition summarize_bot_response (answer : option string)
    (response_content : string) (self : Beebo) : string * Beebo :=
  if 30 <? word_count response_content then
    if negb (truthy (py_strip (config_openai_api_key self)))
    then (shortened response_content, self)
    else
      match answer with
      | Some summary => (py_strip summary, self)
      | None =>
          (shortened response_content,
           log "ERROR Summarizing bot response" self)
      end
  else (response_content, self).

(** What one run of [_process_ai_background] meets outside the object: the
    two timestamps, the answers of the two summarising requests and the
    answer of the chat request ([None]: the request raises, by timeout or
    service failure, or its answer has no message). *)
Record ChatWorld : Type := mkChatWorld {
  user_stamp : string;
  user_summary : option string;
  chat_reply : option string;
  bot_stamp : string;
  bot_summary : option string
}.

Definition apology : string :=
  "Sorry, I'm having trouble processing that request right now".

(** [_process_ai_background]. The context string, the system prompt and the
    prompt are built for the request and leave the object as it is; they
    are not embedded. *)
Definition _process_ai_background (w : ChatWorld) (text : string)
    (self : Beebo) : Beebo :=
  let api_key := py_strip (config_openai_api_key self) in
  if negb (truthy api_key) then
    after 0 (cb_speak "API key not configured") self
  else
    let cleaned_message := py_strip text in
    let self :=
      if 20 <? word_count cleaned_message then
        let (summary, self) :=
          summarize_message (user_summary w) cleaned_message self in
        add_to_context (user_stamp w) summary "user" self
      else add_to_context (user_stamp w) cleaned_message "user" self in
    match chat_reply w with
    | Some bot_response =>
        let self := after 0 (cb_speak bot_response) self in
        let (summarized_response, self) :=
          summarize_bot_response (bot_summary w) bot_response self in
        add_to_context (bot_stamp w) summarized_response "bot" self
    | None =>
        let self := log "ERROR AI processing" self in
        after 0 (cb_speak apology) self
    end.


(** ** Voice commands *)

(** The torch attributes of the object; [torch_start_time] is [None] until
    the torch is first switched on. *)
Record Torch : Type := mkTorch {
  torch_brightness : Z;
  torch_start_time : option Q
}.

(** [set_torch]; [now] is the clock it reads. The panel's [torch_var] is
    not embedded. *)
Definition set_torch (now : Q) (brightness : Z) (torch : Torch) : Torch :=
  let torch := mkTorch brightness (torch_start_time torch) in
  if 0 <? brightness then mkTorch (torch_brightness torch) (Some now)
  else torch.

Definition process_ai_input (text : string) (self : Beebo) : Beebo :=
  start_thread (th_process_ai_background text) self.

(** [process_voice_input] on the torch attributes and the rest of the
    object; [t_activity], [t_torch] and [t_state] are the clock readings
    of the method itself, of [set_torch] and of [set_state]. *)
Definition process_voice_input (t_activity t_torch t_state : Q)
    (text : string) (torch : Torch) (self : Beebo) : Torch * Beebo :=
  let self := with_last_activity_time t_activity self in
  let text_lower := py_strip (py_lower text) in
  let words := py_split text_lower in
  if py_in "light on" text_lower || py_in "torch on" text_lower then
    (set_torch t_torch 100 torch, speak t_state "Torch activated" self)
  else if py_in "light off" text_lower || py_in "torch off" text_lower then
    (set_torch t_torch 0 torch, speak t_state "Torch deactivated" self)
  else
    match words with
    | [word] =>
        if String.eqb word "sleep" then
          let self := set_state t_state STANDBY self in
          (torch,
           play_gif "face_off.gif" false (Some cb_on_face_off_complete) self)
        else (torch, process_ai_input text self)
    | _ => (torch, process_ai_input text self)
    end.

(** ** The object as [__init__] leaves it *)

(** The attributes as [__init__] sets them, before the set-up calls; the
    picture file of the speaking face is [picture]. *)
Definition init (picture : option Image) : Beebo := {|
  current_state := SLEEPING;
  previous_state := SLEEPING;
  wake_word_active := false;
  voice_thread_running := false;
  voice_mode := vm_off;
  should_listen_after_wake := false;
  vosk_rec := None;
  audio_stream := None;
  mic_gain := 2;
  current_input_text := "";
  last_word_time := 0;
  word_timeout := 1;
  listening_start_time := 0;
  initial_timeout := 5;
  has_detected_speech := false;
  beep_played := false;
  wake_word_detected_time := 0;
  wake_word_cooldown := 2;
  current_audio_buffer := [];
  context_memory := [];
  max_context_history := 15;
  pending_volume_timeline := None;
  tts_start_time := None;
  current_gif := None;
  last_activity_time := 0;
  color_animation_active := false;
  color_start_time := 0;
  volume_timeline := [];
  speaking_phase := None;
  is_speaking := false;
  return_to_listening_after_speak := false;
  config_openai_api_key := "";
  config_wake_word := "beebo";
  console := [];
  after_queue := [];
  threads := [];
  face_canvas := canvas_empty;
  speaking_face_png := picture;
  stt_files := []
|}.

(** The object once [__init__] has switched wake-word detection on. *)
Definition asleep : Beebo := toggle_wake_word true (init None).

(** ** Arithmetic of the embedding *)

Lemma Qltb_lt (x y : Q) : Qltb x y = true <-> (x < y)%Q.
Proof.
  unfold Qltb. rewrite negb_true_iff.
  destruct (Qle_bool y x) eqn:E.
  - apply Qle_bool_iff in E. split; [discriminate | intro H; lra].
  - split; [intros _ | reflexivity].
    apply Qnot_le_lt. intro H. apply Qle_bool_iff in H. congruence.
Qed.

Lemma Qltb_ge (x y : Q) : Qltb x y = false <-> (y <= x)%Q.
Proof.
  destruct (Qltb x y) eqn:E.
  - apply Qltb_lt in E. split; [discriminate | intro H; lra].
  - split; [intros _ | reflexivity].
    apply Qnot_lt_le. intro H. apply Qltb_lt in H. congruence.
Qed.

Lemma py_int_inject (z : Z) : py_int (inject_Z z) = z.
Proof. unfold py_int, inject_Z. simpl. apply Z.quot_1_r. Qed.

Lemma py_int_floor (x : Q) : (0 <= x)%Q -> py_int x = Qfloor x.
Proof.
  destruct x as [n d]. unfold py_int, Qfloor, Qle. simpl. intro H.
  apply Z.quot_div_nonneg; lia.
Qed.

Lemma py_int_ceiling (x : Q) : (x <= 0)%Q -> py_int x = Qceiling x.
Proof.
  destruct x as [n d]. unfold py_int, Qceiling, Qfloor, Qle. simpl. intro H.
  replace n with (- - n) at 1 by lia.
  rewrite Z.quot_opp_l by lia. f_equal.
  apply Z.quot_div_nonneg; lia.
Qed.

(** [int] depends on the value of the float only. *)
Lemma py_int_comp (x y : Q) : (x == y)%Q -> py_int x = py_int y.
Proof.
  intro E. destruct (Qlt_le_dec x 0) as [L | L].
  - rewrite !py_int_ceiling by lra. now rewrite E.
  - rewrite !py_int_floor by lra. now rewrite E.
Qed.

(** [int] never moves a float across an integer bound. *)
Lemma py_int_between (lo hi : Z) (x : Q) :
  lo <= 0 <= hi -> (inject_Z lo <= x <= inject_Z hi)%Q ->
  lo <= py_int x <= hi.
Proof.
  intros Hz [Hlo Hhi]. destruct (Qlt_le_dec x 0) as [L | L].
  - rewrite py_int_ceiling by lra. split.
    + rewrite Zle_Qle. pose proof (Qle_ceiling x). lra.
    + assert (Qceiling x <= 0); [| lia].
      replace 0 with (Qceiling 0) by reflexivity.
      apply Qceiling_resp_le. lra.
  - rewrite py_int_floor by lra. split.
    + assert (0 <= Qfloor x); [| lia].
      replace 0 with (Qfloor 0) by reflexivity. apply Qfloor_resp_le. exact L.
    + rewrite Zle_Qle. pose proof (Qfloor_le x). lra.
Qed.

Lemma py_int_monotone (x y : Q) : (0 <= x <= y)%Q -> py_int x <= py_int y.
Proof.
  intros [H0 H]. rewrite !py_int_floor by lra. now apply Qfloor_resp_le.
Qed.

(** ** Speech output: one speaking sequence at a time *)

(** C10. A call of [speak] or of [speak_and_return_to_listening] made while
    [is_speaking] is set returns the object as it was: the state, the
    speaking phase and the return-to-listening flag are unchanged and no
    thread is started. *)
Theorem speak_while_speaking_is_noop (now : Q) (text : string) (self : Beebo) :
  is_speaking self = true ->
  speak now text self = self /\
  speak_and_return_to_listening now text self = self.
Proof.
  intro H. unfold speak, speak_and_return_to_listening.
  rewrite H. split; reflexivity.
Qed.

(** The second of two overlapping requests, with the first one speaking. *)
Lemma speak_while_speaking_is_noop_witness :
  speak 11 "Torch deactivated" (speak 10 "Torch activated" asleep)
  = speak 10 "Torch activated" asleep
  /\ speak_and_return_to_listening 11 "Torch deactivated"
       (speak 10 "Torch activated" asleep)
     = speak 10 "Torch activated" asleep.
Proof.
  apply (speak_while_speaking_is_noop 11 "Torch deactivated"
           (speak 10 "Torch activated" asleep)).
  reflexivity.
Defined.

(** ** Audio session teardown *)

Lemma destroy_vosk_session_healthy (self : Beebo) (s : Stream) :
  audio_stream self = Some s ->
  stop_stream_raises s = false -> close_raises s = false ->
  destroy_vosk_session self = with_vosk_rec None (with_audio_stream None self).
Proof.
  intros E Hs Hc. unfold destroy_vosk_session. now rewrite E, Hs, Hc.
Qed.

Lemma destroy_vosk_session_closed (self : Beebo) :
  audio_stream self = None ->
  destroy_vosk_session self = with_vosk_rec None self.
Proof. intros E. unfold destroy_vosk_session. now rewrite E. Qed.





(** ** Wake cooldown *)

(** A detection less than the cooldown after the recorded one changes
    nothing and is refused. *)
Lemma check_wake_word_in_cooldown (text : string) (now : Q) (self : Beebo) :
  (now - wake_word_detected_time self < wake_word_cooldown self)%Q ->
  _check_wake_word text now self = (false, self).
Proof.
  intro H. unfold _check_wake_word.
  destruct (py_in _ text); [| reflexivity].
  apply Qltb_lt in H. now rewrite H.
Qed.

Lemma trigger_wake_response_keeps_cooldown (self : Beebo) :
  wake_word_detected_time (_trigger_wake_response self)
    = wake_word_detected_time self
  /\ wake_word_cooldown (_trigger_wake_response self) = wake_word_cooldown self
  /\ config_wake_word (_trigger_wake_response self) = config_wake_word self.
Proof.
  unfold _trigger_wake_response. destruct (current_state self); repeat split.
Qed.

(** C1. When [_check_wake_word] accepts a detection at [t1], the cooldown
    had elapsed since the recorded detection, the recorded time becomes
    [t1] in the same call, and a detection offered at any [t2] less than
    the cooldown after [t1] is refused and leaves the object as it is: no
    wake is triggered. *)
Theorem wake_cooldown_suppresses (self self1 : Beebo) (text1 text2 : string)
    (t1 t2 : Q) :
  _check_wake_word text1 t1 self = (true, self1) ->
  (t2 - t1 < wake_word_cooldown self)%Q ->
  (wake_word_cooldown self <= t1 - wake_word_detected_time self)%Q
  /\ wake_word_detected_time self1 = t1
  /\ _check_wake_word text2 t2 self1 = (false, self1).
Proof.
  unfold _check_wake_word at 1. intros H W.
  destruct (py_in _ text1); [| discriminate].
  destruct (Qltb _ _) eqn:C; [discriminate |].
  apply Qltb_ge in C. injection H as <-.
  match goal with
  | |- context [_trigger_wake_response ?s] =>
      destruct (trigger_wake_response_keeps_cooldown s) as (Ht & Hc & _)
  end.
  cbn in Ht, Hc. repeat split.
  - exact C.
  - exact Ht.
  - apply check_wake_word_in_cooldown. now rewrite Ht, Hc.
Qed.

(** "beebo" accepted from standby at 1000 s, heard again 1.5 s later. *)
Lemma wake_cooldown_suppresses_witness :
  let standby := with_current_state STANDBY asleep in
  let accepted := snd (_check_wake_word "hey beebo" 1000 standby) in
  (2 <= 1000 - 0)%Q
  /\ wake_word_detected_time accepted = 1000%Q
  /\ _check_wake_word "beebo" (2003 # 2) accepted = (false, accepted).
Proof.
  intros standby accepted.
  apply (wake_cooldown_suppresses standby accepted "hey beebo" "beebo"
           1000 (2003 # 2)); reflexivity.
Defined.

(** ** Colour interpolation *)

Lemma inject_Z_nonneg (z : Z) : 0 <= z -> (0 <= inject_Z z)%Q.
Proof. intro H. unfold Qle. simpl. lia. Qed.

Lemma py_int_within (lo hi : Z) (x : Q) :
  0 <= lo -> (inject_Z lo <= x <= inject_Z hi)%Q -> lo <= py_int x <= hi.
Proof.
  intros Hlo [H1 H2].
  pose proof (inject_Z_nonneg lo Hlo).
  split.
  - apply Z.le_trans with (py_int (inject_Z lo)).
    + now rewrite py_int_inject.
    + apply py_int_monotone; lra.
  - apply Z.le_trans with (py_int (inject_Z hi)).
    + apply py_int_monotone; lra.
    + now rewrite py_int_inject.
Qed.

Section Channel.
Variables base peak : Z.
Hypothesis base_nonneg : 0 <= base.
Hypothesis peak_nonneg : 0 <= peak.

Let between_nonneg (v : Q) :
  (0 <= v <= 1)%Q ->
  (0 <= inject_Z base + (inject_Z peak - inject_Z base) * v)%Q.
Proof.
  intros [H0 H1].
  pose proof (inject_Z_nonneg base base_nonneg).
  pose proof (inject_Z_nonneg peak peak_nonneg).
  nra.
Qed.

(** A channel that rises from base to peak. *)
Lemma interpolate_rising (v w : Q) :
  base <= peak -> (0 <= v)%Q -> (v <= w)%Q -> (w <= 1)%Q ->
  base <= interpolate base peak v
  /\ interpolate base peak v <= interpolate base peak w
  /\ interpolate base peak w <= peak.
Proof.
  intros Hbp H0 Hvw H1. rewrite Zle_Qle in Hbp.
  pose proof (inject_Z_nonneg base base_nonneg).
  unfold interpolate. repeat split.
  - apply (py_int_within base peak); [assumption | split; nra].
  - apply py_int_monotone. split; [apply between_nonneg; split; lra | nra].
  - apply (py_int_within base peak); [assumption | split; nra].
Qed.

(** A channel that falls from base to peak. *)
Lemma interpolate_falling (v w : Q) :
  peak <= base -> (0 <= v)%Q -> (v <= w)%Q -> (w <= 1)%Q ->
  interpolate base peak v <= base
  /\ interpolate base peak w <= interpolate base peak v
  /\ peak <= interpolate base peak w.
Proof.
  intros Hbp H0 Hvw H1. rewrite Zle_Qle in Hbp.
  pose proof (inject_Z_nonneg peak peak_nonneg).
  unfold interpolate. repeat split.
  - apply (py_int_within peak base); [assumption | split; nra].
  - apply py_int_monotone. split; [apply between_nonneg; split; lra | nra].
  - apply (py_int_within peak base); [assumption | split; nra].
Qed.

Lemma interpolate_at_0 (v : Q) : (v == 0)%Q -> interpolate base peak v = base.
Proof.
  intro E. unfold interpolate.
  rewrite (py_int_comp _ (inject_Z base)); [apply py_int_inject |].
  rewrite E. ring.
Qed.

Lemma interpolate_at_1 (v : Q) : (v == 1)%Q -> interpolate base peak v = peak.
Proof.
  intro E. unfold interpolate.
  rewrite (py_int_comp _ (inject_Z peak)); [apply py_int_inject |].
  rewrite E. ring.
Qed.
End Channel.

(** C6. For volume levels [0 <= v <= w <= 1], every channel of the target
    colour of [apply_volume_color] lies between its base and its peak value,
    red and blue do not rise and green does not fall from [v] to [w], and
    the target colour is the base colour at 0 and the peak colour at 1. *)
Theorem target_color_between_and_monotone (v w : Q) :
  (0 <= v)%Q -> (v <= w)%Q -> (w <= 1)%Q ->
  let '(r, g, b) := target_color v in
  let '(r', g', b') := target_color w in
  (95 <= r <= 99 /\ 155 <= g <= 205 /\ 220 <= b <= 255)
  /\ (95 <= r' <= 99 /\ 155 <= g' <= 205 /\ 220 <= b' <= 255)
  /\ (r' <= r /\ g <= g' /\ b' <= b)
  /\ ((v == 0)%Q -> (r, g, b) = base_color)
  /\ ((w == 1)%Q -> (r', g', b') = peak_color).
Proof.
  intros H0 Hvw H1. unfold target_color, base_color, peak_color.
  destruct (interpolate_falling 99 95 ltac:(lia) ltac:(lia) v w) as (R1 & R2 & R3);
    try assumption; try lia.
  destruct (interpolate_rising 155 205 ltac:(lia) ltac:(lia) v w) as (G1 & G2 & G3);
    try assumption; try lia.
  destruct (interpolate_falling 255 220 ltac:(lia) ltac:(lia) v w) as (B1 & B2 & B3);
    try assumption; try lia.
  repeat split; try lia.
  - intro E. now rewrite !interpolate_at_0.
  - intro E. now rewrite !interpolate_at_1.
Qed.

(** The target colours at silence and at full volume. *)
Lemma target_color_between_and_monotone_witness :
  let '(r, g, b) := target_color 0 in
  let '(r', g', b') := target_color 1 in
  (95 <= r <= 99 /\ 155 <= g <= 205 /\ 220 <= b <= 255)
  /\ (95 <= r' <= 99 /\ 155 <= g' <= 205 /\ 220 <= b' <= 255)
  /\ (r' <= r /\ g <= g' /\ b' <= b)
  /\ ((0 == 0)%Q -> (r, g, b) = base_color)
  /\ ((1 == 1)%Q -> (r', g', b') = peak_color).
Proof.
  apply (target_color_between_and_monotone 0 1); unfold Qle; simpl; lia.
Defined.

(** ** Software gain *)

Definition int16 (v : Z) : Prop := -32768 <= v <= 32767.




(** After the clip the conversion to [int16] has nothing to wrap. *)
Lemma astype_int16_clip (x : Q) :
  let y := np_clip x (inject_Z (-32768)) (inject_Z 32767) in
  astype_int16 y = py_int y /\ int16 (py_int y).
Proof.
  intro y.
  assert (R : int16 (py_int y)).
  { apply py_int_between; [lia |]. subst y. unfold np_clip.
    destruct (Qltb x _) eqn:L; [split; unfold Qle; simpl; lia |].
    destruct (Qltb _ x) eqn:H; [split; unfold Qle; simpl; lia |].
    apply Qltb_ge in L, H. split; assumption. }
  split; [| exact R]. unfold astype_int16, int16 in *.
  rewrite Z.mod_small by lia. lia.
Qed.

(** The sample [o] is the sample [s] scaled by [g] and saturated: inside
    the 16-bit range it is the scaled value (with its fraction dropped, an
    integer value kept as it is), outside it is the nearer end of the
    range. *)
Definition scaled_and_saturated (g : Q) (s o : Z) : Prop :=
  int16 o
  /\ ((inject_Z s * g < inject_Z (-32768))%Q -> o = -32768)
  /\ ((inject_Z 32767 < inject_Z s * g)%Q -> o = 32767)
  /\ ((inject_Z (-32768) <= inject_Z s * g <= inject_Z 32767)%Q ->
      o = py_int (inject_Z s * g)
      /\ forall n, (inject_Z s * g == inject_Z n)%Q -> o = n).

Lemma clip_scaled_and_saturated (g : Q) (s : Z) :
  scaled_and_saturated g s
    (py_int (np_clip (inject_Z s * g) (inject_Z (-32768)) (inject_Z 32767))).
Proof.
  unfold scaled_and_saturated. split; [apply astype_int16_clip |].
  assert (W : (inject_Z (-32768) < inject_Z 32767)%Q) by reflexivity.
  unfold np_clip.
  destruct (Qltb (inject_Z s * g) _) eqn:L.
  - apply Qltb_lt in L. repeat split; intros; lra.
  - apply Qltb_ge in L.
    destruct (Qltb _ (inject_Z s * g)) eqn:H.
    + apply Qltb_lt in H. repeat split; intros; lra.
    + apply Qltb_ge in H. repeat split; intros; try lra.
      rewrite <- (py_int_inject n). now apply py_int_comp.
Qed.


(** The samples 1000, -20000 and 30000 at gain 2: 2000, and the two ends of
    the range. *)
Example software_gain_frame :
  fst (apply_software_gain [xe8; x03; xe0; xb1; x30; x75] 2 asleep)
  = [xd0; x07; x00; x80; xff; x7f].
Proof. vm_compute. reflexivity. Qed.


(** ** Conversation context on a failed request *)

(** The entry [_process_ai_background] files for the user's message before
    it sends the request. *)
Definition user_entry_content (w : ChatWorld) (text : string) (self : Beebo)
  : string :=
  let cleaned_message := py_strip text in
  if 20 <? word_count cleaned_message
  then fst (summarize_message (user_summary w) cleaned_message self)
  else cleaned_message.

(** A configured object, and a chat service that fails. *)
Definition configured : Beebo :=
  with_config_openai_api_key "sk-key" (with_current_state STANDBY asleep).

Definition service_down : ChatWorld :=
  mkChatWorld "10:15:00" None None "10:15:02" None.

(** C7, as stated, fails: the user's message is filed in the context before
    the request is sent and stays there when the request fails. *)
Lemma failed_request_keeps_user_entry :
  chat_reply service_down = None
  /\ context_memory
       (_process_ai_background service_down "what time is it" configured)
     = [mkEntry "10:15:00" "user" "what time is it"]
  /\ context_memory
       (_process_ai_background service_down "what time is it" configured)
     <> context_memory configured.
Proof. repeat split. discriminate. Qed.

Lemma summarize_message_context (answer : option string) (m : string)
    (self : Beebo) :
  context_memory (snd (summarize_message answer m self)) = context_memory self
  /\ max_context_history (snd (summarize_message answer m self))
     = max_context_history self
  /\ after_queue (snd (summarize_message answer m self)) = after_queue self.
Proof.
  unfold summarize_message.
  destruct (negb _); [repeat split |]. destruct answer; repeat split.
Qed.

(** C7, amended. When the key is configured and the chat request fails,
    the apology is queued to be spoken and no bot entry is added; the user
    entry filed before the request stays: the context is the one before
    the request with that entry appended, less its oldest entry when that
    exceeds [max_context_history]. *)
Theorem failed_request_context (w : ChatWorld) (text : string) (self : Beebo) :
  truthy (py_strip (config_openai_api_key self)) = true ->
  chat_reply w = None ->
  let after_failure := _process_ai_background w text self in
  let filed :=
    (context_memory self
       ++ [mkEntry (user_stamp w) "user" (user_entry_content w text self)])%list in
  after_queue after_failure
    = (after_queue self ++ [(0, cb_speak apology)])%list
  /\ context_memory after_failure
     = (if (max_context_history self <? List.length filed)%nat
        then tl filed else filed).
Proof.
  intros K F. unfold _process_ai_background, user_entry_content.
  rewrite K, F. cbn [negb].
  destruct (20 <? word_count (py_strip text)).
  - destruct (summarize_message_context (user_summary w) (py_strip text) self)
      as (C & M & Q).
    destruct (summarize_message _ _ self) as [summary self1].
    cbn [fst snd] in *. cbn. rewrite C, M, Q. split; reflexivity.
  - cbn. split; reflexivity.
Qed.

Lemma failed_request_context_witness :
  after_queue (_process_ai_background service_down "what time is it" configured)
    = [(0, cb_speak apology)]
  /\ context_memory
       (_process_ai_background service_down "what time is it" configured)
     = [mkEntry "10:15:00" "user" "what time is it"].
Proof.
  apply (failed_request_context service_down "what time is it" configured);
    reflexivity.
Defined.

(** ** Voice mode against system state *)

(** Case analysis on every [match] and [if] of the goal. *)
Ltac cases :=
  repeat match goal with
    | |- context [match ?x with _ => _ end] => destruct x eqn:?
    end.

(** The part of the object the worker thread's methods leave alone. *)
Record Lifecycle : Type := mkLifecycle {
  lc_state : SystemState;
  lc_mode : VoiceMode;
  lc_wake_word_active : bool
}.

Definition lifecycle (self : Beebo) : Lifecycle :=
  mkLifecycle (current_state self) (voice_mode self) (wake_word_active self).

Lemma destroy_vosk_session_lifecycle (self : Beebo) :
  lifecycle (destroy_vosk_session self) = lifecycle self.
Proof. unfold destroy_vosk_session. cases; reflexivity. Qed.

Lemma create_fresh_vosk_session_lifecycle (o : OpenOutcome) (self : Beebo) :
  lifecycle (snd (create_fresh_vosk_session o self)) = lifecycle self.
Proof.
  unfold create_fresh_vosk_session.
  pose proof (destroy_vosk_session_lifecycle self) as D.
  destruct o; cbn; exact D.
Qed.

Lemma apply_software_gain_lifecycle (d : list byte) (g : Q) (self : Beebo) :
  lifecycle (snd (apply_software_gain d g self)) = lifecycle self.
Proof. unfold apply_software_gain. cases; reflexivity. Qed.

Lemma check_speech_timeouts_lifecycle (t : Q) (self : Beebo) :
  lifecycle (snd (_check_speech_timeouts t self)) = lifecycle self.
Proof. unfold _check_speech_timeouts. cases; reflexivity. Qed.

Lemma process_partial_speech_lifecycle (p : string) (t : Q) (self : Beebo) :
  lifecycle (_process_partial_speech p t self) = lifecycle self.
Proof. unfold _process_partial_speech. cases; reflexivity. Qed.

Lemma process_final_speech_lifecycle (p : string) (self : Beebo) :
  lifecycle (_process_final_speech p self) = lifecycle self.
Proof. unfold _process_final_speech. cases; reflexivity. Qed.

Lemma listening_turn_lifecycle (f : ListenFrame) (self : Beebo) :
  lifecycle (snd (listening_turn f self)) = lifecycle self.
Proof.
  unfold listening_turn.
  destruct (audio_stream self); [| apply check_speech_timeouts_lifecycle].
  destruct (listen_heard f) as [| data answer];
    [apply check_speech_timeouts_lifecycle |].
  pose proof (apply_software_gain_lifecycle data (mic_gain self) self) as G.
  destruct (apply_software_gain data (mic_gain self) self) as [processed self1].
  cbn [snd] in G. rewrite <- G.
  destruct (vosk_rec _); destruct answer; cases; cbn [snd];
    rewrite ?check_speech_timeouts_lifecycle,
      ?process_partial_speech_lifecycle, ?process_final_speech_lifecycle;
    reflexivity.
Qed.

Lemma listening_loop_lifecycle (frames : list ListenFrame) (self : Beebo) :
  lifecycle (snd (listening_loop frames self)) = lifecycle self.
Proof.
  revert self. induction frames as [| f rest IH]; intro self; cbn.
  - destruct (current_state self); reflexivity.
  - destruct (current_state self); try reflexivity.
    pose proof (listening_turn_lifecycle f self) as T.
    destruct (listening_turn f self) as [stop self1]. cbn [snd] in T.
    destruct stop; [exact T |]. now rewrite IH.
Qed.

Lemma save_recorded_audio_lifecycle (self : Beebo) :
  lifecycle (save_recorded_audio self) = lifecycle self.
Proof. unfold save_recorded_audio. cases; reflexivity. Qed.

(** [_handle_speech_recognition] writes neither the state nor the voice
    mode: what it decides, it posts to the main loop. *)
Lemma handle_speech_recognition_lifecycle (o : OpenOutcome) (t1 t2 : Q)
    (frames : list ListenFrame) (self : Beebo) :
  lifecycle (snd (_handle_speech_recognition o t1 t2 frames self))
  = lifecycle self.
Proof.
  unfold _handle_speech_recognition.
  assert (F : forall s, lifecycle (destroy_vosk_session (save_recorded_audio s))
                        = lifecycle s).
  { intro s. now rewrite destroy_vosk_session_lifecycle,
                         save_recorded_audio_lifecycle. }
  destruct (current_state self) eqn:S; cbn [snd]; try apply F.
  pose proof (create_fresh_vosk_session_lifecycle o self) as C.
  destruct (create_fresh_vosk_session o self) as [ok self1]. cbn [snd] in C.
  destruct ok; cbn [negb snd].
  - match goal with
    | |- context [listening_loop frames ?s] =>
        pose proof (listening_loop_lifecycle frames s) as L;
        destruct (listening_loop frames s) as [[|] self2]
    end; cbn [snd] in *; rewrite ?F, L; exact C.
  - rewrite F. exact C.
Qed.

(** The relation the design document asks of voice mode and state. *)
Definition voice_mode_invariant (self : Beebo) : Prop :=
  (current_state self = PROCESSING \/ current_state self = SPEAKING ->
   voice_mode self = vm_off)
  /\ (voice_mode self = vm_listening <-> current_state self = LISTENING)
  /\ (voice_mode self = vm_wake_word ->
      (current_state self = SLEEPING \/ current_state self = STANDBY)
      /\ wake_word_active self = true).

(** Standby, reached through the wake animation with no deferred wake. *)
Definition standby : Beebo :=
  on_wake_animation_complete 990 (power_on 980 asleep).

(** The wake word heard in standby. *)
Definition heard_in_standby : Beebo :=
  snd (_check_wake_word "beebo" 1000 standby).

(** A pass of the worker in which the device does not open. *)
Definition device_busy : VoiceInputs :=
  mkVoiceInputs open_raises [] 1000 1000 [].

(** C2, as stated, fails. From an object that satisfies the relation,
    [set_state] to WAKING_UP leaves the voice mode at wake_word; and from
    an object that satisfies it, the worker's pass in listening mode ends
    with the voice mode at wake_word while the state is still LISTENING. *)
Lemma voice_mode_invariant_broken :
  (voice_mode_invariant asleep
   /\ ~ voice_mode_invariant (set_state 980 WAKING_UP asleep))
  /\ (voice_mode_invariant heard_in_standby
      /\ fst (_voice_thread_pass device_busy heard_in_standby) = loop_left
      /\ ~ voice_mode_invariant
             (snd (_voice_thread_pass device_busy heard_in_standby))).
Proof.
  split; split.
  - repeat split; cbn; try discriminate; auto.
    intros [H | H]; discriminate H.
  - intros (_ & _ & W). destruct (W eq_refl) as [[H | H] _]; discriminate H.
  - repeat split; cbn; try discriminate; auto.
    intros [H | H]; discriminate H.
  - split; [reflexivity |].
    intros (_ & _ & W). destruct (W eq_refl) as [[H | H] _]; discriminate H.
Qed.

Lemma set_voice_mode_lifecycle (mode : VoiceMode) (self : Beebo) :
  lifecycle (set_voice_mode mode self)
  = mkLifecycle (current_state self) mode (wake_word_active self).
Proof. unfold set_voice_mode, start_voice_thread. cases; reflexivity. Qed.

Lemma stop_voice_system_lifecycle (self : Beebo) :
  lifecycle (stop_voice_system self)
  = mkLifecycle (current_state self) vm_off (wake_word_active self).
Proof.
  unfold stop_voice_system. now rewrite destroy_vosk_session_lifecycle.
Qed.

(** What [set_state] does to state and voice mode when the state changes. *)
Lemma set_state_lifecycle (now : Q) (new_state : SystemState) (self : Beebo) :
  new_state <> current_state self ->
  lifecycle (set_state now new_state self)
  = mkLifecycle new_state
      match new_state with
      | PROCESSING | SPEAKING => vm_off
      | LISTENING => vm_listening
      | SLEEPING => if wake_word_active self then vm_wake_word else vm_off
      | STANDBY =>
          if wake_word_active self then vm_wake_word else voice_mode self
      | WAKING_UP | ERROR => voice_mode self
      end
      (wake_word_active self).
Proof.
  intro N. unfold set_state.
  destruct (SystemState_eqb new_state (current_state self)) eqn:E.
  - destruct new_state, (current_state self); try discriminate E;
      contradiction N; reflexivity.
  - destruct new_state; cbn [wake_word_active with_last_activity_time
      with_current_state with_previous_state];
      destruct (wake_word_active self) eqn:A;
      rewrite ?set_voice_mode_lifecycle, ?stop_voice_system_lifecycle;
      unfold lifecycle; cbn; rewrite ?A; reflexivity.
Qed.

(** C2, amended. A [set_state] that changes the state leaves the voice
    mode off for PROCESSING and SPEAKING, listening for LISTENING,
    wake_word for SLEEPING and STANDBY when wake-word detection is enabled,
    off for SLEEPING when it is not, and as it was otherwise (WAKING_UP,
    ERROR, STANDBY with detection disabled). The wake trigger from STANDBY
    writes LISTENING and listening together. The worker's pass in listening
    mode leaves the state as it was and the voice mode at wake_word. *)
Theorem voice_mode_after_writes (now : Q) (new_state : SystemState)
    (w : VoiceInputs) (self : Beebo) :
  (new_state <> current_state self ->
   current_state (set_state now new_state self) = new_state
   /\ voice_mode (set_state now new_state self)
      = match new_state with
        | PROCESSING | SPEAKING => vm_off
        | LISTENING => vm_listening
        | SLEEPING => if wake_word_active self then vm_wake_word else vm_off
        | STANDBY =>
            if wake_word_active self then vm_wake_word else voice_mode self
        | WAKING_UP | ERROR => voice_mode self
        end)
  /\ (current_state self = STANDBY ->
      current_state (_trigger_wake_response self) = LISTENING
      /\ voice_mode (_trigger_wake_response self) = vm_listening)
  /\ (voice_mode self = vm_listening ->
      fst (_voice_thread_pass w self) = loop_left ->
      current_state (snd (_voice_thread_pass w self)) = current_state self
      /\ voice_mode (snd (_voice_thread_pass w self)) = vm_wake_word).
Proof.
  split; [| split].
  - intro N. pose proof (set_state_lifecycle now new_state self N) as L.
    split.
    + exact (f_equal lc_state L).
    + exact (f_equal lc_mode L).
  - intro S. unfold _trigger_wake_response. rewrite S. split; reflexivity.
  - intros M. unfold _voice_thread_pass. rewrite M.
    pose proof (handle_speech_recognition_lifecycle (session_open w)
                  (listen_start_clock w) (listen_word_clock w)
                  (listen_frames w) self) as L.
    destruct (_handle_speech_recognition _ _ _ _ self) as [[|] self1];
      cbn [fst snd] in *; [| discriminate].
    intros _. split; [exact (f_equal lc_state L) | reflexivity].
Qed.

Lemma voice_mode_after_writes_witness :
  (current_state (set_state 1010 PROCESSING heard_in_standby) = PROCESSING
   /\ voice_mode (set_state 1010 PROCESSING heard_in_standby) = vm_off)
  /\ (current_state (_trigger_wake_response standby) = LISTENING
      /\ voice_mode (_trigger_wake_response standby) = vm_listening)
  /\ (current_state (snd (_voice_thread_pass device_busy heard_in_standby))
      = LISTENING
      /\ voice_mode (snd (_voice_thread_pass device_busy heard_in_standby))
         = vm_wake_word).
Proof.
  split; [| split].
  - apply (voice_mode_after_writes 1010 PROCESSING device_busy
             heard_in_standby).
    discriminate.
  - apply (voice_mode_after_writes 1010 PROCESSING device_busy standby).
    reflexivity.
  - apply (voice_mode_after_writes 1010 PROCESSING device_busy
             heard_in_standby); reflexivity.
Defined.

(** ** Endpointing *)

(** The part of the object the endpointer decides on. *)
Record Utterance : Type := mkUtterance {
  ut_state : SystemState;
  ut_text : string;
  ut_last_word : Q;
  ut_word_timeout : Q;
  ut_start : Q;
  ut_initial_timeout : Q;
  ut_detected : bool;
  ut_queue : list (Z * Callback);
  ut_stream : option Stream;
  ut_rec : option KaldiRecognizer
}.

Definition utterance (self : Beebo) : Utterance :=
  mkUtterance (current_state self) (current_input_text self)
    (last_word_time self) (word_timeout self) (listening_start_time self)
    (initial_timeout self) (has_detected_speech self) (after_queue self)
    (audio_stream self) (vosk_rec self).

(** From [utterance a = utterance b], the equality of each field. *)
Ltac fields H :=
  pose proof (f_equal ut_state H);
  pose proof (f_equal ut_text H);
  pose proof (f_equal ut_last_word H);
  pose proof (f_equal ut_word_timeout H);
  pose proof (f_equal ut_start H);
  pose proof (f_equal ut_initial_timeout H);
  pose proof (f_equal ut_detected H);
  pose proof (f_equal ut_queue H);
  pose proof (f_equal ut_stream H);
  pose proof (f_equal ut_rec H);
  cbn [utterance ut_state ut_text ut_last_word ut_word_timeout ut_start
       ut_initial_timeout ut_detected ut_queue ut_stream ut_rec] in *.

(** The fields of the later object written as those of the earlier one. *)
Ltac earlier :=
  repeat match goal with
    | E : ?f ?a = ?f ?b |- context [?f ?a] => rewrite E
    end.

Lemma apply_software_gain_utterance (d : list byte) (g : Q) (self : Beebo) :
  utterance (snd (apply_software_gain d g self)) = utterance self.
Proof. unfold apply_software_gain. cases; reflexivity. Qed.

(** A frame in which nothing is heard: the read raises, or the recogniser
    answers with an empty text. *)
Definition silent (f : ListenFrame) : bool :=
  match listen_heard f with
  | read_raises => true
  | read_returns _ (final_result text) => negb (truthy (py_strip text))
  | read_returns _ (partial_result partial) => negb (truthy (py_strip partial))
  end.

(** On a silent frame the turn is the timeout check, on an object that
    differs from the one before in its recording and console at most. *)
Lemma listening_turn_silent (f : ListenFrame) (self : Beebo) :
  silent f = true ->
  exists mid : Beebo,
    utterance mid = utterance self
    /\ listening_turn f self = _check_speech_timeouts (listen_clock f) mid.
Proof.
  unfold silent, listening_turn. intro S.
  destruct (audio_stream self); [| now exists self].
  destruct (listen_heard f) as [| data answer]; [now exists self |].
  pose proof (apply_software_gain_utterance data (mic_gain self) self) as G.
  destruct (apply_software_gain data (mic_gain self) self) as [processed self1].
  cbn [snd] in G.
  eexists (with_current_audio_buffer _ self1). split; [exact G |].
  destruct (vosk_rec _); [| reflexivity].
  destruct answer as [text | partial].
  - destruct (truthy (py_strip text)); [discriminate S | reflexivity].
  - destruct (truthy (py_strip partial)); [discriminate S | reflexivity].
Qed.

Lemma check_no_speech_waiting (t : Q) (self : Beebo) :
  has_detected_speech self = false ->
  (t - listening_start_time self <= initial_timeout self)%Q ->
  _check_speech_timeouts t self = (false, self).
Proof.
  intros D W. unfold _check_speech_timeouts. rewrite D. cbn [negb].
  apply Qltb_ge in W. now rewrite W.
Qed.

Lemma check_no_speech_expired (t : Q) (self : Beebo) :
  has_detected_speech self = false ->
  (initial_timeout self < t - listening_start_time self)%Q ->
  _check_speech_timeouts t self
  = (true, after 0 (cb_set_state STANDBY)
             (log "Timeout - no speech detected" self)).
Proof.
  intros D W. unfold _check_speech_timeouts. rewrite D. cbn [negb].
  apply Qltb_lt in W. now rewrite W.
Qed.

(** The listening loop when nothing is heard: it goes on while the initial
    timeout has not passed and leaves at the first frame at which it has,
    with the return to STANDBY posted and nothing else. *)
Lemma listening_loop_no_speech (quiet : list ListenFrame)
    (last : ListenFrame) (rest : list ListenFrame) (self : Beebo) :
  current_state self = LISTENING ->
  has_detected_speech self = false ->
  Forall (fun f =>
            silent f = true
            /\ (listen_clock f - listening_start_time self
                <= initial_timeout self)%Q) quiet ->
  silent last = true ->
  (initial_timeout self < listen_clock last - listening_start_time self)%Q ->
  exists self' : Beebo,
    listening_loop (quiet ++ last :: rest) self = (loop_left, self')
    /\ utterance self' = utterance (after 0 (cb_set_state STANDBY) self).
Proof.
  revert self. induction quiet as [| f quiet IH];
    intros self St D Q Sl Ex; cbn [app listening_loop]; rewrite St.
  - destruct (listening_turn_silent last self Sl) as (mid & U & ->).
    fields U.
    rewrite check_no_speech_expired by (earlier; assumption).
    eexists. split; [reflexivity |].
    unfold utterance, after, log. cbn. now earlier.
  - inversion Q as [| ? ? [Sf Wf] Q']; subst.
    destruct (listening_turn_silent f self Sf) as (mid & U & ->).
    fields U.
    rewrite check_no_speech_waiting by (earlier; assumption).
    destruct (IH mid) as (self' & L & U'); try (earlier; assumption).
    exists self'. split; [exact L |]. rewrite U'.
    unfold utterance, after. cbn. now earlier.
Qed.

Lemma create_fresh_vosk_session_opened (s : Stream) (self : Beebo) :
  exists fresh : Beebo,
    create_fresh_vosk_session (opened s) self = (true, fresh)
    /\ utterance fresh
       = mkUtterance (current_state self) (current_input_text self)
           (last_word_time self) (word_timeout self)
           (listening_start_time self) (initial_timeout self)
           (has_detected_speech self) (after_queue self)
           (Some s) (Some (Kaldi 16000)).
Proof.
  unfold create_fresh_vosk_session, destroy_vosk_session.
  eexists. split; [reflexivity |]. cases; reflexivity.
Qed.

(** The [finally] block leaves what was decided as it is. *)
Lemma finally_keeps_decision (self : Beebo) :
  let left := destroy_vosk_session (save_recorded_audio self) in
  current_state left = current_state self
  /\ current_input_text left = current_input_text self
  /\ has_detected_speech left = has_detected_speech self
  /\ after_queue left = after_queue self.
Proof.
  unfold destroy_vosk_session, save_recorded_audio. cases; repeat split.
Qed.

Lemma set_state_arrives (now : Q) (new_state : SystemState) (self : Beebo) :
  current_state (set_state now new_state self) = new_state.
Proof.
  destruct (SystemState_eqb new_state (current_state self)) eqn:E.
  - unfold set_state. rewrite E.
    destruct new_state, (current_state self); (discriminate E || reflexivity).
  - apply (f_equal lc_state (set_state_lifecycle now new_state self
                               ltac:(intros ->; now destruct (current_state self)))).
Qed.

(** C8. In a listening session that opens its audio session and in which
    nothing is heard, the worker goes on listening while the clock read at
    the top of a turn is within [initial_timeout] of the start, and at the
    first turn at which it is past it the method is left, whatever frames
    would follow: the return to STANDBY is posted to the main loop and
    nothing else, no speech is marked and no utterance is submitted; running
    the posted call puts the state at STANDBY. *)
Theorem no_speech_abandons (s : Stream) (t_start t_word now : Q)
    (quiet : list ListenFrame) (last : ListenFrame) (rest : list ListenFrame)
    (self : Beebo) :
  current_state self = LISTENING ->
  Forall (fun f =>
            silent f = true
            /\ (listen_clock f - t_start <= initial_timeout self)%Q) quiet ->
  silent last = true ->
  (initial_timeout self < listen_clock last - t_start)%Q ->
  exists self' : Beebo,
    _handle_speech_recognition (opened s) t_start t_word
      (quiet ++ last :: rest) self = (loop_left, self')
    /\ after_queue self'
       = (after_queue self ++ [(0, cb_set_state STANDBY)])%list
    /\ has_detected_speech self' = false
    /\ current_input_text self' = ""
    /\ current_state (set_state now STANDBY self') = STANDBY.
Proof.
  intros St Q Sl Ex. unfold _handle_speech_recognition. rewrite St.
  destruct (create_fresh_vosk_session_opened s self) as (fresh & -> & U).
  cbn [negb]. fields U.
  match goal with
  | |- context [listening_loop _ ?s0] =>
      destruct (listening_loop_no_speech quiet last rest s0)
        as (self' & -> & U')
  end; try (cbn; earlier; assumption); [reflexivity |].
  destruct (finally_keeps_decision self') as (_ & T & D & A).
  cbn zeta in T, D, A.
  eexists. split; [reflexivity |].
  rewrite T, D, A. clear T D A.
  pose proof (f_equal ut_queue U') as A.
  pose proof (f_equal ut_detected U') as D.
  pose proof (f_equal ut_text U') as T.
  cbn in A, D, T. rewrite A, D, T. earlier.
  repeat split. apply set_state_arrives.
Qed.

(** Nothing heard for more than five seconds after listening began at
    1000 s; the frame that would follow is not read. *)
Lemma no_speech_abandons_witness :
  exists self' : Beebo,
    _handle_speech_recognition (opened (mkStream false false)) 1000 1000
      ([mkListenFrame 1001 (read_returns [x00; x00] (partial_result ""));
        mkListenFrame 1003 read_raises]
       ++ mkListenFrame (10051 # 10) (read_returns [x00; x00] (final_result " "))
       :: [mkListenFrame 1006
             (read_returns [x00; x00] (partial_result "turn"))])
      heard_in_standby = (loop_left, self')
    /\ after_queue self'
       = (after_queue heard_in_standby ++ [(0, cb_set_state STANDBY)])%list
    /\ has_detected_speech self' = false
    /\ current_input_text self' = ""
    /\ current_state (set_state 1006 STANDBY self') = STANDBY.
Proof.
  apply (no_speech_abandons (mkStream false false) 1000 1000 1006
           [mkListenFrame 1001 (read_returns [x00; x00] (partial_result ""));
            mkListenFrame 1003 read_raises]
           (mkListenFrame (10051 # 10)
              (read_returns [x00; x00] (final_result " ")))
           [mkListenFrame 1006
              (read_returns [x00; x00] (partial_result "turn"))]
           heard_in_standby).
  - reflexivity.
  - repeat constructor; vm_compute; discriminate.
  - reflexivity.
  - reflexivity.
Defined.

(** *** Partial transcripts *)

(** A frame that brings no word beyond the accumulated text [cur]: the
    read raises, a final answer is empty, or a partial answer has no more
    words than [cur]. *)
Definition adds_no_word (cur : string) (f : ListenFrame) : bool :=
  match listen_heard f with
  | read_raises => true
  | read_returns _ (final_result text) => negb (truthy (py_strip text))
  | read_returns _ (partial_result partial) =>
      word_count (py_strip partial) <=? word_count cur
  end.

Lemma process_partial_speech_no_new_word (p : string) (t : Q) (self : Beebo) :
  has_detected_speech self = true ->
  word_count p <= word_count (current_input_text self) ->
  _process_partial_speech p t self = self.
Proof.
  intros D W. unfold _process_partial_speech. rewrite D. cbn [negb].
  destruct (Z.ltb_spec (word_count (current_input_text self)) (word_count p));
    [lia |].
  now destruct (truthy p).
Qed.

Lemma listening_turn_no_new_word (f : ListenFrame) (self : Beebo) :
  has_detected_speech self = true ->
  adds_no_word (current_input_text self) f = true ->
  exists mid : Beebo,
    utterance mid = utterance self
    /\ listening_turn f self = _check_speech_timeouts (listen_clock f) mid.
Proof.
  unfold adds_no_word, listening_turn. intros D S.
  destruct (audio_stream self); [| now exists self].
  destruct (listen_heard f) as [| data answer]; [now exists self |].
  pose proof (apply_software_gain_utterance data (mic_gain self) self) as G.
  destruct (apply_software_gain data (mic_gain self) self) as [processed self1].
  cbn [snd] in G.
  eexists (with_current_audio_buffer _ self1). split; [exact G |].
  fields G.
  destruct (vosk_rec _); [| reflexivity].
  destruct answer as [text | partial].
  - destruct (truthy (py_strip text)); [discriminate S | reflexivity].
  - rewrite process_partial_speech_no_new_word.
    + now destruct (truthy (py_strip partial)).
    + cbn. now earlier.
    + cbn. earlier. now apply Z.leb_le.
Qed.

Lemma check_speech_waiting (t : Q) (self : Beebo) :
  has_detected_speech self = true ->
  (t - last_word_time self <= word_timeout self)%Q ->
  _check_speech_timeouts t self = (false, self).
Proof.
  intros D W. unfold _check_speech_timeouts. rewrite D. cbn [negb].
  apply Qltb_ge in W. now rewrite W.
Qed.

Lemma check_speech_expired (t : Q) (self : Beebo) :
  has_detected_speech self = true ->
  (word_timeout self < t - last_word_time self)%Q ->
  truthy (py_strip (current_input_text self)) = true ->
  _check_speech_timeouts t self
  = (true,
     after 0 cb_process_voice_input_current_text
       (after 0 (cb_set_state PROCESSING)
          (log ("Word timeout - submitting: '" ++ current_input_text self ++ "'")
             self))).
Proof.
  intros D W T. unfold _check_speech_timeouts. rewrite D. cbn [negb].
  apply Qltb_lt in W. now rewrite W, T.
Qed.

(** The utterance as the main loop will find it once the worker has
    posted its submission. *)
Definition submitted (self : Beebo) : Utterance :=
  utterance
    (after 0 cb_process_voice_input_current_text
       (after 0 (cb_set_state PROCESSING) self)).

(** The listening loop once speech is there: it goes on while no word is
    added and the word timeout has not passed since the last one, and
    leaves at the first frame at which it has, submitting the accumulated
    text. *)
Lemma listening_loop_word_timeout (quiet : list ListenFrame)
    (last : ListenFrame) (rest : list ListenFrame) (self : Beebo) :
  current_state self = LISTENING ->
  has_detected_speech self = true ->
  truthy (py_strip (current_input_text self)) = true ->
  Forall (fun f =>
            adds_no_word (current_input_text self) f = true
            /\ (listen_clock f - last_word_time self <= word_timeout self)%Q)
         quiet ->
  adds_no_word (current_input_text self) last = true ->
  (word_timeout self < listen_clock last - last_word_time self)%Q ->
  exists self' : Beebo,
    listening_loop (quiet ++ last :: rest) self = (loop_left, self')
    /\ utterance self' = submitted self.
Proof.
  revert self. induction quiet as [| f quiet IH];
    intros self St D T Q Sl Ex; cbn [app listening_loop]; rewrite St.
  - destruct (listening_turn_no_new_word last self D Sl) as (mid & U & ->).
    fields U.
    rewrite check_speech_expired by (earlier; assumption).
    eexists. split; [reflexivity |].
    unfold submitted, utterance, after, log. cbn. now earlier.
  - inversion Q as [| ? ? [Sf Wf] Q']; subst.
    destruct (listening_turn_no_new_word f self D Sf) as (mid & U & ->).
    fields U.
    rewrite check_speech_waiting by (earlier; assumption).
    destruct (IH mid) as (self' & L & U'); try (earlier; assumption).
    exists self'. split; [exact L |]. rewrite U'.
    unfold submitted, utterance, after. cbn. now earlier.
Qed.

Lemma word_count_nonneg (s : string) : 0 <= word_count s.
Proof. unfold word_count. lia. Qed.

(** The rule of [_process_partial_speech]. *)
Lemma process_partial_speech_rule (p : string) (t : Q) (self : Beebo) :
  (word_count (current_input_text self) < word_count p ->
   current_input_text (_process_partial_speech p t self) = p
   /\ last_word_time (_process_partial_speech p t self) = t)
  /\ (word_count p <= word_count (current_input_text self) ->
      current_input_text (_process_partial_speech p t self)
        = current_input_text self
      /\ last_word_time (_process_partial_speech p t self)
         = last_word_time self).
Proof.
  unfold _process_partial_speech.
  destruct p as [| c p'].
  - split; [| now intros _]. intro H.
    pose proof (word_count_nonneg (current_input_text self)).
    change (word_count "") with 0 in H. lia.
  - cbn [truthy].
    split; intro H;
      destruct (has_detected_speech self); cbn [negb];
      match goal with
      | |- context [?a <? ?b] => destruct (Z.ltb_spec a b)
      end; (cbn in *; lia) || (split; reflexivity).
Qed.

Lemma process_partial_speech_more_words (p : string) (t : Q) (self : Beebo) :
  truthy p = true ->
  word_count (current_input_text self) < word_count p ->
  utterance (_process_partial_speech p t self)
  = mkUtterance (current_state self) p t (word_timeout self)
      (listening_start_time self) (initial_timeout self) true
      (after_queue self) (audio_stream self) (vosk_rec self).
Proof.
  intros T W. unfold _process_partial_speech. rewrite T.
  destruct (has_detected_speech self) eqn:D; cbn [negb];
    match goal with
    | |- context [?a <? ?b] => destruct (Z.ltb_spec a b)
    end; try (cbn in *; lia);
    unfold utterance; cbn; rewrite ?D; reflexivity.
Qed.

(** A turn that hears a partial transcript with more words than the
    accumulated text: the text and the time of the last word are replaced
    and the loop goes on. *)
Lemma listening_turn_new_words (f : ListenFrame) (data : list byte)
    (partial : string) (self : Beebo) :
  listen_heard f = read_returns data (partial_result partial) ->
  audio_stream self <> None -> vosk_rec self <> None ->
  truthy (py_strip partial) = true ->
  word_count (current_input_text self) < word_count (py_strip partial) ->
  (0 <= word_timeout self)%Q ->
  exists self' : Beebo,
    listening_turn f self = (false, self')
    /\ utterance self'
       = mkUtterance (current_state self) (py_strip partial) (listen_clock f)
           (word_timeout self) (listening_start_time self)
           (initial_timeout self) true (after_queue self)
           (audio_stream self) (vosk_rec self).
Proof.
  intros Hf Hs Hr Tp W Wt. unfold listening_turn. rewrite Hf.
  destruct (audio_stream self) as [st |] eqn:Es; [| contradiction].
  pose proof (apply_software_gain_utterance data (mic_gain self) self) as G.
  destruct (apply_software_gain data (mic_gain self) self) as [processed self1].
  cbn [snd] in G.
  set (recorded := with_current_audio_buffer _ self1).
  assert (R : utterance recorded = utterance self) by exact G.
  clearbody recorded. clear G. fields R.
  destruct (vosk_rec recorded) as [k |] eqn:Er; [| congruence].
  rewrite Tp.
  pose proof (process_partial_speech_more_words (py_strip partial)
                (listen_clock f) recorded Tp ltac:(earlier; exact W)) as P.
  set (self' := _process_partial_speech _ _ recorded) in *. clearbody self'.
  exists self'. split.
  - apply check_speech_waiting.
    + exact (f_equal ut_detected P).
    + pose proof (f_equal ut_last_word P) as L.
      pose proof (f_equal ut_word_timeout P) as T. cbn in L, T.
      rewrite L, T. earlier. lra.
  - rewrite P. f_equal; congruence.
Qed.

(** The same two lemmas, read on the utterance alone. *)
Lemma listening_loop_new_words (u : Utterance) (f : ListenFrame)
    (data : list byte) (partial : string) (rest : list ListenFrame)
    (self : Beebo) :
  utterance self = u ->
  ut_state u = LISTENING -> ut_stream u <> None -> ut_rec u <> None ->
  listen_heard f = read_returns data (partial_result partial) ->
  truthy (py_strip partial) = true ->
  word_count (ut_text u) < word_count (py_strip partial) ->
  (0 <= ut_word_timeout u)%Q ->
  exists self' : Beebo,
    listening_loop (f :: rest) self = listening_loop rest self'
    /\ utterance self'
       = mkUtterance (ut_state u) (py_strip partial) (listen_clock f)
           (ut_word_timeout u) (ut_start u) (ut_initial_timeout u) true
           (ut_queue u) (ut_stream u) (ut_rec u).
Proof.
  intros <- St Hs Hr Hf Tp W Wt. cbn in St, Hs, Hr, W, Wt.
  destruct (listening_turn_new_words f data partial self Hf Hs Hr Tp W Wt)
    as (self' & T & U).
  exists self'. split; [| exact U].
  cbn [listening_loop]. now rewrite St, T.
Qed.

Lemma listening_loop_submits (u : Utterance) (quiet : list ListenFrame)
    (last : ListenFrame) (rest : list ListenFrame) (self : Beebo) :
  utterance self = u ->
  ut_state u = LISTENING -> ut_detected u = true ->
  truthy (py_strip (ut_text u)) = true ->
  Forall (fun f =>
            adds_no_word (ut_text u) f = true
            /\ (listen_clock f - ut_last_word u <= ut_word_timeout u)%Q)
         quiet ->
  adds_no_word (ut_text u) last = true ->
  (ut_word_timeout u < listen_clock last - ut_last_word u)%Q ->
  exists self' : Beebo,
    listening_loop (quiet ++ last :: rest) self = (loop_left, self')
    /\ current_input_text self' = ut_text u
    /\ after_queue self'
       = (ut_queue u ++ [(0, cb_set_state PROCESSING);
                         (0, cb_process_voice_input_current_text)])%list.
Proof.
  intros <- St D T Q Sl Ex.
  destruct (listening_loop_word_timeout quiet last rest self St D T Q Sl Ex)
    as (self' & L & U).
  exists self'. split; [exact L |]. split.
  - exact (f_equal ut_text U).
  - pose proof (f_equal ut_queue U) as A. cbn in A. rewrite A.
    unfold after. cbn. now rewrite <- app_assoc.
Qed.

(** C3, as stated, fails on the tie-break: with "turn of" accumulated, the
    partial "turn off" has as many words and is longer, and the accumulated
    text stays "turn of". *)
Lemma equal_count_longer_partial_is_dropped :
  let self := _process_partial_speech "turn of" 1001 heard_in_standby in
  current_input_text self = "turn of"
  /\ word_count "turn off" = word_count (current_input_text self)
  /\ (String.length (current_input_text self) < String.length "turn off")%nat
  /\ current_input_text (_process_partial_speech "turn off" 1002 self)
     = "turn of"
  /\ current_input_text (_process_partial_speech "turn off" 1002 self)
     <> "turn off".
Proof. cbv zeta. repeat split; try (vm_compute; lia). discriminate. Qed.

(** C3, amended. [_process_partial_speech] replaces the accumulated text
    and the time of the last new word when the partial transcript has
    strictly more words than the accumulated text, and leaves both as they
    are when it has as many or fewer, whatever its length. So, in a
    listening session, the partials "turn", "turn on" and "turn on the",
    then frames that add no word, the last of them more than [word_timeout]
    after "turn on the" was heard, end the session with "turn on the"
    submitted for processing. *)
Theorem partial_transcripts_accumulate
    (partial_text : string) (current_time : Q) (self : Beebo)
    (s : Stream) (t_start t_word t1 t2 t3 : Q) (d1 d2 d3 : list byte)
    (quiet : list ListenFrame) (last : ListenFrame) (rest : list ListenFrame)
    (listening : Beebo) :
  ((word_count (current_input_text self) < word_count partial_text ->
    current_input_text (_process_partial_speech partial_text current_time self)
      = partial_text
    /\ last_word_time (_process_partial_speech partial_text current_time self)
       = current_time)
   /\ (word_count partial_text <= word_count (current_input_text self) ->
       current_input_text
         (_process_partial_speech partial_text current_time self)
         = current_input_text self
       /\ last_word_time
            (_process_partial_speech partial_text current_time self)
          = last_word_time self))
  /\ (current_state listening = LISTENING ->
      (0 <= word_timeout listening)%Q ->
      Forall (fun f =>
                adds_no_word "turn on the" f = true
                /\ (listen_clock f - t3 <= word_timeout listening)%Q) quiet ->
      adds_no_word "turn on the" last = true ->
      (word_timeout listening < listen_clock last - t3)%Q ->
      exists self' : Beebo,
        _handle_speech_recognition (opened s) t_start t_word
          ([mkListenFrame t1 (read_returns d1 (partial_result "turn"));
            mkListenFrame t2 (read_returns d2 (partial_result "turn on"));
            mkListenFrame t3 (read_returns d3 (partial_result "turn on the"))]
           ++ quiet ++ last :: rest) listening
        = (loop_left, self')
        /\ current_input_text self' = "turn on the"
        /\ after_queue self'
           = (after_queue listening
              ++ [(0, cb_set_state PROCESSING);
                  (0, cb_process_voice_input_current_text)])%list).
Proof.
  split; [apply process_partial_speech_rule |].
  intros St Wt Q Sl Ex. unfold _handle_speech_recognition. rewrite St.
  destruct (create_fresh_vosk_session_opened s listening) as (fresh & -> & U).
  cbn [negb app]. rewrite St in U.
  match goal with
  | |- context [listening_loop _ ?s0] => set (start := s0)
  end.
  assert (U0 : utterance start
               = mkUtterance LISTENING "" t_word (word_timeout listening)
                   t_start (initial_timeout listening) false
                   (after_queue listening) (Some s) (Some (Kaldi 16000))).
  { subst start. unfold utterance, log. cbn.
    fields U. f_equal; assumption. }
  clearbody start.
  cbn [app].
  destruct (listening_loop_new_words _
              (mkListenFrame t1 (read_returns d1 (partial_result "turn")))
              d1 "turn"
              (mkListenFrame t2 (read_returns d2 (partial_result "turn on"))
               :: mkListenFrame t3
                    (read_returns d3 (partial_result "turn on the"))
               :: quiet ++ last :: rest) start U0)
    as (s1 & -> & U1); try reflexivity; try discriminate; try exact Wt.
  destruct (listening_loop_new_words _
              (mkListenFrame t2 (read_returns d2 (partial_result "turn on")))
              d2 "turn on"
              (mkListenFrame t3
                 (read_returns d3 (partial_result "turn on the"))
               :: quiet ++ last :: rest) s1 U1)
    as (s2 & -> & U2); try reflexivity; try discriminate; try exact Wt.
  destruct (listening_loop_new_words _
              (mkListenFrame t3
                 (read_returns d3 (partial_result "turn on the")))
              d3 "turn on the" (quiet ++ last :: rest) s2 U2)
    as (s3 & -> & U3); try reflexivity; try discriminate; try exact Wt.
  destruct (listening_loop_submits _ quiet last rest s3 U3)
    as (self' & -> & T & A); try reflexivity; try assumption.
  destruct (finally_keeps_decision self') as (_ & T' & _ & A').
  cbn zeta in T', A'.
  eexists. split; [reflexivity |]. rewrite T', A', T, A. split; reflexivity.
Qed.

(** "turn" accumulated at 1001 s. *)
Definition heard_turn : Beebo :=
  _process_partial_speech "turn" 1001 heard_in_standby.

(** The recogniser repeating its last partial transcript. *)
Definition still_turn_on_the (t : Q) : ListenFrame :=
  mkListenFrame t (read_returns [x00; x00] (partial_result "turn on the")).

Lemma partial_transcripts_accumulate_witness :
  (current_input_text (_process_partial_speech "turn on" 1002 heard_turn)
     = "turn on"
   /\ last_word_time (_process_partial_speech "turn on" 1002 heard_turn)
      = 1002%Q)
  /\ (current_input_text (_process_partial_speech "stop" 1002 heard_turn)
        = "turn"
      /\ last_word_time (_process_partial_speech "stop" 1002 heard_turn)
         = 1001%Q)
  /\ exists self' : Beebo,
       _handle_speech_recognition (opened (mkStream false false)) 1000 1000
         ([mkListenFrame 1001 (read_returns [] (partial_result "turn"));
           mkListenFrame 1002 (read_returns [] (partial_result "turn on"));
           mkListenFrame 1003
             (read_returns [] (partial_result "turn on the"))]
          ++ [still_turn_on_the (20075 # 20)]
          ++ still_turn_on_the (10041 # 10) :: [])
         heard_in_standby
       = (loop_left, self')
       /\ current_input_text self' = "turn on the"
       /\ after_queue self'
          = (after_queue heard_in_standby
             ++ [(0, cb_set_state PROCESSING);
                 (0, cb_process_voice_input_current_text)])%list.
Proof.
  split; [| split].
  - apply (partial_transcripts_accumulate "turn on" 1002 heard_turn
             (mkStream false false) 1000 1000 1001 1002 1003 [] [] []
             [still_turn_on_the (20075 # 20)]
             (still_turn_on_the (10041 # 10)) [] heard_in_standby).
    reflexivity.
  - apply (partial_transcripts_accumulate "stop" 1002 heard_turn
             (mkStream false false) 1000 1000 1001 1002 1003 [] [] []
             [still_turn_on_the (20075 # 20)]
             (still_turn_on_the (10041 # 10)) [] heard_in_standby).
    vm_compute. discriminate.
  - apply (partial_transcripts_accumulate "turn on" 1002 heard_turn
             (mkStream false false) 1000 1000 1001 1002 1003 [] [] []
             [still_turn_on_the (20075 # 20)]
             (still_turn_on_the (10041 # 10)) [] heard_in_standby).
    + reflexivity.
    + vm_compute. discriminate.
    + repeat constructor; vm_compute; discriminate.
    + reflexivity.
    + reflexivity.
Defined.

(** ** Playback synchronisation *)

(** The whole 50 ms segments between two clock readings. *)
Definition segments_between (from now : Q) : Z :=
  Qfloor ((now - from) / segment).

Lemma per_segment (x : Q) : (x / segment == x * 20)%Q.
Proof. unfold segment. field. Qed.

Lemma py_int_segments (from now : Q) :
  (from <= now)%Q ->
  py_int ((now - from) / segment) = segments_between from now
  /\ 0 <= segments_between from now.
Proof.
  intro H. unfold segments_between.
  assert (P : (0 <= (now - from) / segment)%Q)
    by (rewrite per_segment; lra).
  split; [now apply py_int_floor |].
  replace 0 with (Qfloor 0) by reflexivity. now apply Qfloor_resp_le.
Qed.

Lemma py_index_in_range {A : Type} (l : list A) (i : Z) :
  0 <= i < Z.of_nat (List.length l) ->
  exists v, nth_error l (Z.to_nat i) = Some v /\ py_index l i = Some v.
Proof.
  intros [H0 H1]. unfold py_index.
  destruct (Z.leb_spec 0 i); [| lia]. destruct (Z.ltb_spec i (Z.of_nat (List.length l))); [| lia].
  cbn [andb].
  destruct (nth_error l (Z.to_nat i)) as [v |] eqn:E.
  - now exists v.
  - apply nth_error_None in E. lia.
Qed.

(** One colour update while the animation runs. *)
Lemma update_speaking_colors_tick (now : Q) (image : Image) (self : Beebo) :
  color_animation_active self = true ->
  current_state self = SPEAKING ->
  speaking_phase self = Some speaking ->
  speaking_face_png self = Some image ->
  (color_start_time self <= now)%Q ->
  let index := segments_between (color_start_time self) now in
  (index < Z.of_nat (List.length (volume_timeline self)) ->
   exists v : Q,
     nth_error (volume_timeline self) (Z.to_nat index) = Some v
     /\ update_speaking_colors now self
        = after 50 cb_update_speaking_colors
            (with_face_canvas (canvas_image (apply_volume_color image v)) self))
  /\ (Z.of_nat (List.length (volume_timeline self)) <= index ->
      update_speaking_colors now self = with_color_animation_active false self).
Proof.
  intros A S P I T index.
  destruct (py_int_segments _ _ T) as [E N]. fold index in E, N.
  unfold update_speaking_colors. rewrite A, S, P, E. cbn [negb orb SystemState_eqb].
  split; intro H.
  - destruct (Z.ltb_spec index (Z.of_nat (List.length (volume_timeline self))));
      [| lia].
    destruct (py_index_in_range (volume_timeline self) index ltac:(lia))
      as (v & Hn & ->).
    exists v. split; [exact Hn |].
    unfold display_speaking_face_with_color. rewrite I. cbn.
    now rewrite P, A.
  - destruct (Z.ltb_spec index (Z.of_nat (List.length (volume_timeline self))));
      [lia | reflexivity].
Qed.

(** Starting the animation some time into the playback. *)
Lemma start_color_animation_skips (t_elapsed t_start t_tick started : Q)
    (timeline : list Q) (self : Beebo) :
  tts_start_time self = Some started ->
  (started <= t_elapsed)%Q ->
  let skip := segments_between started t_elapsed in
  (skip < Z.of_nat (List.length timeline) ->
   start_color_animation_delayed t_elapsed t_start t_tick timeline self
   = update_speaking_colors t_tick
       (with_volume_timeline (skipn (Z.to_nat skip) timeline)
          (with_color_start_time t_start
             (with_color_animation_active true self))))
  /\ (Z.of_nat (List.length timeline) <= skip ->
      start_color_animation_delayed t_elapsed t_start t_tick timeline self
      = display_speaking_face self).
Proof.
  intros S T skip. destruct (py_int_segments _ _ T) as [E N].
  fold skip in E, N.
  unfold start_color_animation_delayed. rewrite S, E.
  split; intro H;
    destruct (Z.ltb_spec skip (Z.of_nat (List.length timeline))); try lia;
    [| reflexivity].
  unfold py_slice_from. destruct (Z.leb_spec 0 skip); [reflexivity | lia].
Qed.

(** Segments elapsed over two stretches of time fit in the segments
    elapsed over a stretch that covers both. *)
Lemma segments_between_add (a b c d e f : Q) :
  ((b - a) + (d - c) <= f - e)%Q ->
  segments_between a b + segments_between c d <= segments_between e f.
Proof.
  intro H. unfold segments_between.
  rewrite <- (Qfloor_Z (Qfloor ((b - a) / segment) + Qfloor ((d - c) / segment))).
  apply Qfloor_resp_le. rewrite inject_Z_plus.
  pose proof (Qfloor_le ((b - a) / segment)) as X.
  pose proof (Qfloor_le ((d - c) / segment)) as Y.
  pose proof (per_segment (b - a)) as Ex.
  pose proof (per_segment (d - c)) as Ey.
  pose proof (per_segment (f - e)) as Ez.
  remember ((b - a) / segment)%Q as x.
  remember ((d - c) / segment)%Q as y.
  remember ((f - e) / segment)%Q as z.
  lra.
Qed.

(** After the envelope: when the colour update that finds the index past
    the end has stopped the animation, the next pass of the face loop, with
    the playback still pending, shows the static speaking face. *)
Lemma static_face_after_envelope
    (started t_elapsed t_start t_tick now t1 t2 t3 : Q)
    (timeline : list Q) (image : Image) (self : Beebo) :
  current_state self = SPEAKING ->
  speaking_phase self = Some speaking ->
  color_animation_active self = false ->
  speaking_face_png self = Some image ->
  tts_start_time self = Some started ->
  pending_volume_timeline self = Some timeline ->
  (started <= t_elapsed)%Q -> (t_elapsed <= t_start)%Q ->
  (t_start <= t_tick)%Q -> (t_start <= now)%Q -> (now <= t1)%Q ->
  let running :=
    start_color_animation_delayed t_elapsed t_start t_tick timeline self in
  let stopped := update_speaking_colors now running in
  color_animation_active running = true ->
  color_animation_active stopped = false ->
  Z.of_nat (List.length (volume_timeline running))
    <= segments_between (color_start_time running) now
  /\ stopped = with_color_animation_active false running
  /\ face_canvas (handle_speaking_animation t1 t2 t3 stopped)
     = canvas_image image.
Proof.
  intros S P A I T Pe H1 H2 H3 H4 H5 running stopped R St.
  destruct (start_color_animation_skips t_elapsed t_start t_tick started
              timeline self T H1) as [Go Stay].
  set (skip := segments_between started t_elapsed) in *.
  destruct (Z.lt_ge_cases skip (Z.of_nat (List.length timeline))) as [L | L].
  2:{ exfalso. subst running. rewrite (Stay L) in R.
      unfold display_speaking_face in R. rewrite I in R. cbn in R.
      congruence. }
  specialize (Go L). clear Stay.
  set (begun := with_volume_timeline (skipn (Z.to_nat skip) timeline)
                  (with_color_start_time t_start
                     (with_color_animation_active true self))) in *.
  destruct (update_speaking_colors_tick t_tick image begun) as [Sel Past];
    try assumption; try reflexivity.
  assert (Run : exists v, running
            = after 50 cb_update_speaking_colors
                (with_face_canvas (canvas_image (apply_volume_color image v))
                   begun)).
  { destruct (Z.lt_ge_cases
                (segments_between (color_start_time begun) t_tick)
                (Z.of_nat (List.length (volume_timeline begun)))) as [C | C].
    - destruct (Sel C) as (v & _ & E). exists v. subst running. congruence.
    - exfalso. subst running. rewrite Go, (Past C) in R. discriminate R. }
  destruct Run as (v & Run). clearbody running. subst running.
  destruct (update_speaking_colors_tick now image
              (after 50 cb_update_speaking_colors
                 (with_face_canvas (canvas_image (apply_volume_color image v))
                    begun))) as [Sel' Past'];
    try assumption; try reflexivity.
  cbn [color_start_time volume_timeline after with_after_queue
       with_face_canvas] in Sel', Past' |- *.
  destruct (Z.lt_ge_cases
              (segments_between (color_start_time begun) now)
              (Z.of_nat (List.length (volume_timeline begun)))) as [C | C].
  { exfalso. destruct (Sel' C) as (v' & _ & E). subst stopped.
    rewrite E in St. discriminate St. }
  split; [exact C |]. split; [exact (Past' C) |].
  subst stopped. rewrite (Past' C).
  pose proof (segments_between_add started t_elapsed t_start now started t1
                ltac:(lra)) as Add.
  fold skip in Add. subst begun.
  cbn [color_start_time volume_timeline with_volume_timeline
       with_color_start_time with_color_animation_active] in C.
  rewrite length_skipn in C.
  destruct (py_int_segments started t_elapsed H1) as [_ N]. fold skip in N.
  match goal with
  | |- context [handle_speaking_animation _ _ _ ?s] => set (halted := s)
  end.
  assert (P' : speaking_phase halted = Some speaking) by exact P.
  assert (Pe' : pending_volume_timeline halted = Some timeline) by exact Pe.
  assert (A' : color_animation_active halted = false) by reflexivity.
  assert (T' : tts_start_time halted = Some started) by exact T.
  assert (I' : speaking_face_png halted = Some image) by exact I.
  clearbody halted.
  unfold handle_speaking_animation. rewrite P', Pe', A'.
  destruct timeline as [| v0 tl]; [cbn [List.length Z.of_nat] in L; lia |].
  destruct (start_color_animation_skips t1 t2 t3 started (v0 :: tl) halted)
    as [_ Stay]; [exact T' | lra |].
  rewrite Stay by lia.
  unfold display_speaking_face. now rewrite I'.
Qed.

Lemma segments_between_value (from now x : Q) :
  (now - from == x * segment)%Q -> segments_between from now = Qfloor x.
Proof.
  intro E. unfold segments_between.
  assert (E' : ((now - from) / segment == x)%Q)
    by (rewrite per_segment, E; unfold segment; field).
  now rewrite E'.
Qed.

(** An envelope of three samples, played from the moment it is ready. *)
Lemma three_sample_envelope (started : Q) (image : Image) (self : Beebo) :
  current_state self = SPEAKING ->
  speaking_phase self = Some speaking ->
  speaking_face_png self = Some image ->
  tts_start_time self = Some started ->
  let running :=
    start_color_animation_delayed started started started [0; 1 # 2; 1]%Q
      self in
  segments_between started (started + (120 # 1000)) = 2
  /\ face_canvas (update_speaking_colors (started + (120 # 1000)) running)
     = canvas_image (apply_volume_color image 1)
  /\ target_color 1 = peak_color.
Proof.
  intros S P I T running.
  assert (Z0 : segments_between started started = 0)
    by (rewrite (segments_between_value _ _ 0); [reflexivity | ring]).
  assert (Z2 : segments_between started (started + (120 # 1000)) = 2).
  { rewrite (segments_between_value _ _ (24 # 10)); [reflexivity |].
    unfold segment. ring. }
  split; [exact Z2 |]. split; [| reflexivity].
  destruct (start_color_animation_skips started started started started
              [0; 1 # 2; 1]%Q self T ltac:(lra)) as [Go _].
  rewrite Z0 in Go. specialize (Go ltac:(cbn; lia)). cbn [Z.to_nat skipn] in Go.
  set (begun := with_volume_timeline _ _) in Go.
  destruct (update_speaking_colors_tick started image begun) as [Sel _];
    try assumption; try reflexivity; [cbn; lra |].
  cbn [color_start_time volume_timeline begun with_volume_timeline
       with_color_start_time] in Sel.
  rewrite Z0 in Sel. destruct (Sel ltac:(cbn; lia)) as (v & _ & E).
  subst running. rewrite Go, E.
  destruct (update_speaking_colors_tick (started + (120 # 1000)) image
              (after 50 cb_update_speaking_colors
                 (with_face_canvas (canvas_image (apply_volume_color image v))
                    begun))) as [Sel' _];
    try assumption; try reflexivity; [cbn; lra |].
  cbn [color_start_time volume_timeline begun with_volume_timeline
       with_color_start_time after with_after_queue with_face_canvas] in Sel'.
  rewrite Z2 in Sel'. destruct (Sel' ltac:(cbn; lia)) as (v' & N & E').
  cbn in N. injection N as <-. rewrite E'. reflexivity.
Qed.

(** C5. With [index] the whole 50 ms segments since [color_start_time], a
    colour update shows the sample at [index] of the envelope it was given
    and books the next update, and stops the animation once [index] reaches
    the length of that envelope. Starting the animation drops from the
    envelope the whole segments elapsed since the playback started, and
    shows the static speaking face instead when they reach its length.
    After a colour update has stopped the animation, the next pass of the
    face loop shows the static speaking face. For the envelope
    [0.0, 0.5, 1.0] played from the moment it is ready, the update at
    120 ms is on index 2 and shows the peak colour. *)
Theorem playback_synchronizer
    (started t_elapsed t_start t_tick now t1 t2 t3 : Q)
    (timeline : list Q) (image : Image) (self : Beebo) :
  (* a colour update *)
  (color_animation_active self = true ->
   current_state self = SPEAKING ->
   speaking_phase self = Some speaking ->
   speaking_face_png self = Some image ->
   (color_start_time self <= now)%Q ->
   let index := segments_between (color_start_time self) now in
   (index < Z.of_nat (List.length (volume_timeline self)) ->
    exists v : Q,
      nth_error (volume_timeline self) (Z.to_nat index) = Some v
      /\ update_speaking_colors now self
         = after 50 cb_update_speaking_colors
             (with_face_canvas (canvas_image (apply_volume_color image v))
                self))
   /\ (Z.of_nat (List.length (volume_timeline self)) <= index ->
       update_speaking_colors now self
       = with_color_animation_active false self))
  (* the start of the animation *)
  /\ (tts_start_time self = Some started ->
      (started <= t_elapsed)%Q ->
      let skip := segments_between started t_elapsed in
      (skip < Z.of_nat (List.length timeline) ->
       start_color_animation_delayed t_elapsed t_start t_tick timeline self
       = update_speaking_colors t_tick
           (with_volume_timeline (skipn (Z.to_nat skip) timeline)
              (with_color_start_time t_start
                 (with_color_animation_active true self))))
      /\ (Z.of_nat (List.length timeline) <= skip ->
          speaking_face_png self = Some image ->
          start_color_animation_delayed t_elapsed t_start t_tick timeline self
          = display_speaking_face self
          /\ face_canvas (display_speaking_face self) = canvas_image image))
  (* after the envelope *)
  /\ (current_state self = SPEAKING ->
      speaking_phase self = Some speaking ->
      color_animation_active self = false ->
      speaking_face_png self = Some image ->
      tts_start_time self = Some started ->
      pending_volume_timeline self = Some timeline ->
      (started <= t_elapsed)%Q -> (t_elapsed <= t_start)%Q ->
      (t_start <= t_tick)%Q -> (t_start <= now)%Q -> (now <= t1)%Q ->
      let running :=
        start_color_animation_delayed t_elapsed t_start t_tick timeline self in
      let stopped := update_speaking_colors now running in
      color_animation_active running = true ->
      color_animation_active stopped = false ->
      Z.of_nat (List.length (volume_timeline running))
        <= segments_between (color_start_time running) now
      /\ stopped = with_color_animation_active false running
      /\ face_canvas (handle_speaking_animation t1 t2 t3 stopped)
         = canvas_image image)
  (* the envelope [0.0, 0.5, 1.0] *)
  /\ (current_state self = SPEAKING ->
      speaking_phase self = Some speaking ->
      speaking_face_png self = Some image ->
      tts_start_time self = Some started ->
      let running :=
        start_color_animation_delayed started started started
          [0; 1 # 2; 1]%Q self in
      segments_between started (started + (120 # 1000)) = 2
      /\ face_canvas
           (update_speaking_colors (started + (120 # 1000)) running)
         = canvas_image (apply_volume_color image 1)
      /\ target_color 1 = peak_color).
Proof.
  split; [| split; [| split]].
  - apply update_speaking_colors_tick.
  - intros T H skip.
    destruct (start_color_animation_skips t_elapsed t_start t_tick started
                timeline self T H) as [Go Stay].
    split; [exact Go |]. intros L I. split; [exact (Stay L) |].
    unfold display_speaking_face. now rewrite I.
  - apply static_face_after_envelope.
  - apply three_sample_envelope.
Qed.

(** A speaking face of one blue and one transparent pixel, and an object
    in the speaking phase whose playback of [0.0, 0.5, 1.0] began at
    2000 s. *)
Definition picture : Image := [(99, 155, 255, 255); (0, 0, 0, 0)].

Definition talking : Beebo :=
  with_pending_volume_timeline (Some [0; 1 # 2; 1]%Q)
    (with_tts_start_time (Some 2000%Q)
       (with_speaking_phase (Some speaking)
          (speak 1999 "Torch activated" (init (Some picture))))).

Definition coloured : Beebo :=
  start_color_animation_delayed 2000 2000 2000 [0; 1 # 2; 1]%Q talking.

Lemma playback_synchronizer_witness :
  (exists v : Q,
     nth_error (volume_timeline coloured)
       (Z.to_nat (segments_between (color_start_time coloured) (200012 # 100)))
     = Some v
     /\ update_speaking_colors (200012 # 100) coloured
        = after 50 cb_update_speaking_colors
            (with_face_canvas (canvas_image (apply_volume_color picture v))
               coloured))
  /\ start_color_animation_delayed (20001 # 10) (20001 # 10) (20001 # 10)
       [0; 1 # 2; 1]%Q talking
     = update_speaking_colors (20001 # 10)
         (with_volume_timeline [1]%Q
            (with_color_start_time (20001 # 10)
               (with_color_animation_active true talking)))
  /\ face_canvas
       (handle_speaking_animation (20003 # 10) (20003 # 10) (20003 # 10)
          (update_speaking_colors (20002 # 10) coloured))
     = canvas_image picture
  /\ face_canvas (update_speaking_colors (2000 + (120 # 1000)) coloured)
     = canvas_image (apply_volume_color picture 1).
Proof.
  split; [| split; [| split]].
  - apply (playback_synchronizer 2000 2000 2000 2000 (200012 # 100)
             (20003 # 10) (20003 # 10) (20003 # 10) [0; 1 # 2; 1]%Q picture
             coloured); try reflexivity; vm_compute; discriminate.
  - apply (playback_synchronizer 2000 (20001 # 10) (20001 # 10) (20001 # 10)
             (200012 # 100) (20003 # 10) (20003 # 10) (20003 # 10)
             [0; 1 # 2; 1]%Q picture talking);
      try reflexivity; vm_compute; discriminate.
  - apply (playback_synchronizer 2000 2000 2000 2000 (20002 # 10)
             (20003 # 10) (20003 # 10) (20003 # 10) [0; 1 # 2; 1]%Q picture
             talking); try reflexivity; vm_compute; discriminate.
  - apply (playback_synchronizer 2000 2000 2000 2000 (20002 # 10)
             (20003 # 10) (20003 # 10) (20003 # 10) [0; 1 # 2; 1]%Q picture
             talking); reflexivity.
Defined.

(** * Further properties of the embedded code *)

(** ** Frames of samples *)

(** Induction over a buffer two bytes at a time. *)
Lemma byte_pairs_ind (P : list byte -> Prop) :
  P [] -> (forall a, P [a]) ->
  (forall a b rest, P rest -> P (a :: b :: rest)) ->
  forall data, P data.
Proof.
  intros H0 H1 H2.
  assert (B : forall data, P data /\ forall a, P (a :: data)).
  { induction data as [| b rest [IH1 IH2]]; split; auto. }
  intro data. apply B.
Qed.

(** [np.frombuffer] accepts exactly the buffers of even length, and gives
    one sample for every two bytes. *)
Lemma frombuffer_int16_length (data : list byte) :
  match frombuffer_int16 data with
  | Some samples => List.length data = (2 * List.length samples)%nat
  | None => Nat.odd (List.length data) = true
  end.
Proof.
  induction data as [| a | a b rest IH] using byte_pairs_ind;
    try reflexivity.
  cbn [frombuffer_int16].
  destruct (frombuffer_int16 rest) as [samples |]; cbn [option_map].
  - cbn [List.length]. lia.
  - exact IH.
Qed.

Lemma byte_of_Z_to_N (b : byte) : byte_of_Z (Z.of_N (Byte.to_N b)) = b.
Proof.
  unfold byte_of_Z. pose proof (Byte.to_N_bounded b) as B.
  rewrite Z.mod_small by lia. rewrite N2Z.id. now rewrite Byte.of_to_N.
Qed.

Lemma int16_of_bytes_range (lo hi : byte) : int16 (int16_of_bytes lo hi).
Proof.
  unfold int16, int16_of_bytes.
  pose proof (Byte.to_N_bounded lo). pose proof (Byte.to_N_bounded hi).
  destruct (Z.ltb_spec (Z.of_N (Byte.to_N lo) + 256 * Z.of_N (Byte.to_N hi))
              32768); lia.
Qed.

(** The bytes written for a sample read from two bytes are those bytes. *)
Lemma int16_tobytes_of_bytes (lo hi : byte) :
  int16_tobytes (int16_of_bytes lo hi) = [lo; hi].
Proof.
  unfold int16_tobytes, int16_of_bytes.
  pose proof (Byte.to_N_bounded lo). pose proof (Byte.to_N_bounded hi).
  set (l := Z.of_N (Byte.to_N lo)) in *. set (h := Z.of_N (Byte.to_N hi)) in *.
  assert (U : (if l + 256 * h <? 32768 then l + 256 * h
               else l + 256 * h - 65536) mod 65536 = l + 256 * h).
  { destruct (Z.ltb_spec (l + 256 * h) 32768).
    - apply Z.mod_small. lia.
    - replace (l + 256 * h - 65536) with (l + 256 * h + (-1) * 65536) by lia.
      rewrite Z.mod_add by lia. apply Z.mod_small. lia. }
  rewrite U.
  replace ((l + 256 * h) mod 256) with l.
  2:{ apply (Z.mod_unique_pos (l + 256 * h) 256 h l); lia. }
  replace ((l + 256 * h) / 256) with h.
  2:{ apply (Z.div_unique_pos (l + 256 * h) 256 h l); lia. }
  subst l h. now rewrite !byte_of_Z_to_N.
Qed.

Lemma tobytes_frombuffer (data : list byte) (samples : list Z) :
  frombuffer_int16 data = Some samples ->
  flat_map int16_tobytes samples = data /\ Forall int16 samples.
Proof.
  revert samples.
  induction data as [| a | a b rest IH] using byte_pairs_ind;
    intros samples E; cbn [frombuffer_int16] in E.
  - injection E as <-. split; [reflexivity | constructor].
  - discriminate E.
  - destruct (frombuffer_int16 rest) as [l |]; [| discriminate E].
    injection E as <-. destruct (IH l eq_refl) as [F R].
    cbn [flat_map]. rewrite int16_tobytes_of_bytes, F.
    split; [reflexivity |]. constructor; [apply int16_of_bytes_range | exact R].
Qed.

(** X1. A buffer of odd length is no frame of 16-bit samples: the
    conversion raises, [apply_software_gain] logs the error and gives the
    buffer back as it came. *)
Theorem software_gain_odd_buffer (audio_data : list byte) (g : Q)
    (self : Beebo) :
  Nat.odd (List.length audio_data) = true ->
  apply_software_gain audio_data g self
  = (audio_data, log "ERROR Software gain" self).
Proof.
  intro O. unfold apply_software_gain.
  pose proof (frombuffer_int16_length audio_data) as L.
  destruct (frombuffer_int16 audio_data) as [samples |]; [| reflexivity].
  rewrite L in O. rewrite Nat.odd_mul in O. discriminate O.
Qed.

Lemma software_gain_odd_buffer_witness :
  apply_software_gain [xe8; x03; xe0] 2 asleep
  = ([xe8; x03; xe0], log "ERROR Software gain" asleep).
Proof.
  apply (software_gain_odd_buffer [xe8; x03; xe0] 2 asleep). reflexivity.
Defined.

(** X2. At gain 1 a frame of whole samples comes back byte for byte, and
    nothing is logged. *)
Theorem software_gain_unit (audio_data : list byte) (self : Beebo) :
  Nat.even (List.length audio_data) = true ->
  apply_software_gain audio_data 1 self = (audio_data, self).
Proof.
  intro Ev. unfold apply_software_gain.
  pose proof (frombuffer_int16_length audio_data) as L.
  destruct (frombuffer_int16 audio_data) as [samples |] eqn:E.
  2:{ rewrite <- Nat.negb_odd, L in Ev. discriminate Ev. }
  destruct (tobytes_frombuffer audio_data samples E) as [F R].
  rewrite !map_map. f_equal.
  transitivity (flat_map int16_tobytes samples); [| exact F]. f_equal.
  transitivity (map (fun s => s) samples); [| apply map_id].
  apply map_ext_in. intros s Hs.
  rewrite Forall_forall in R. specialize (R s Hs).
  destruct (astype_int16_clip (inject_Z s * 1)) as [-> _].
  destruct (clip_scaled_and_saturated 1 s) as (_ & _ & _ & In).
  apply In.
  - unfold int16 in R. rewrite Qmult_1_r. rewrite <- !Zle_Qle. exact R.
  - apply Qmult_1_r.
Qed.

Lemma software_gain_unit_witness :
  apply_software_gain [xe8; x03; xe0; xb1] 1 asleep
  = ([xe8; x03; xe0; xb1], asleep).
Proof.
  apply (software_gain_unit [xe8; x03; xe0; xb1] asleep). reflexivity.
Defined.

(** X3. Whatever the gain and the buffer, [apply_software_gain] returns as
    many bytes as it was given. *)
Theorem software_gain_keeps_length (audio_data : list byte) (g : Q)
    (self : Beebo) :
  List.length (fst (apply_software_gain audio_data g self))
  = List.length audio_data.
Proof.
  unfold apply_software_gain.
  pose proof (frombuffer_int16_length audio_data) as L.
  destruct (frombuffer_int16 audio_data) as [samples |]; [| reflexivity].
  cbn [fst]. rewrite L, !map_map. clear L.
  induction samples as [| s l IH]; [reflexivity |].
  cbn [map flat_map]. rewrite length_app, IH. cbn. lia.
Qed.

(** ** The audio session over a pass of the worker *)

(** A stream whose [stop_stream()] and [close()] return normally. *)
Definition returns_normally (s : Stream) : Prop :=
  stop_stream_raises s = false /\ close_raises s = false.

(** No stream is open, or the open one can be closed. *)
Definition closable (self : Beebo) : Prop :=
  forall s, audio_stream self = Some s -> returns_normally s.

(** The device, when it opens, gives a stream that can be closed. *)
Definition opens_closable (o : OpenOutcome) : Prop :=
  match o with
  | opened s => returns_normally s
  | _ => True
  end.

Lemma destroy_vosk_session_closes (self : Beebo) :
  closable self ->
  audio_stream (destroy_vosk_session self) = None
  /\ vosk_rec (destroy_vosk_session self) = None.
Proof.
  intro C. destruct (audio_stream self) as [s |] eqn:E.
  - destruct (C s E) as [Hs Hc].
    rewrite (destroy_vosk_session_healthy self s E Hs Hc). split; reflexivity.
  - rewrite (destroy_vosk_session_closed self E). split; [exact E | reflexivity].
Qed.

Lemma create_fresh_vosk_session_outcome (o : OpenOutcome) (self : Beebo) :
  closable self ->
  let ok := fst (create_fresh_vosk_session o self) in
  let fresh := snd (create_fresh_vosk_session o self) in
  match o with
  | opened s =>
      ok = true /\ audio_stream fresh = Some s
      /\ vosk_rec fresh = Some (Kaldi 16000)
      /\ current_audio_buffer fresh = []
  | open_raises =>
      ok = false /\ audio_stream fresh = None
      /\ vosk_rec fresh = Some (Kaldi 16000)
  | recognizer_raises =>
      ok = false /\ audio_stream fresh = None /\ vosk_rec fresh = None
  end.
Proof.
  intro C. destruct (destroy_vosk_session_closes self C) as [S R].
  unfold create_fresh_vosk_session.
  destruct o; cbn; repeat split; assumption.
Qed.

(** X4. A fresh session never keeps the old one. When the old stream can
    be closed, [create_fresh_vosk_session] returns [True] exactly when the
    device opens, and then the object holds the new stream, a new recogniser
    and an empty recording; when the recogniser or the device fails, it
    holds no stream at all. *)
Theorem fresh_session_replaces_old (o : OpenOutcome) (self : Beebo) :
  closable self ->
  let ok := fst (create_fresh_vosk_session o self) in
  let fresh := snd (create_fresh_vosk_session o self) in
  match o with
  | opened s =>
      ok = true /\ audio_stream fresh = Some s
      /\ vosk_rec fresh = Some (Kaldi 16000)
      /\ current_audio_buffer fresh = []
  | open_raises =>
      ok = false /\ audio_stream fresh = None
      /\ vosk_rec fresh = Some (Kaldi 16000)
  | recognizer_raises =>
      ok = false /\ audio_stream fresh = None /\ vosk_rec fresh = None
  end.
Proof. exact (create_fresh_vosk_session_outcome o self). Qed.

Lemma fresh_session_replaces_old_witness :
  let old := snd (create_fresh_vosk_session (opened (mkStream false false))
                    asleep) in
  fst (create_fresh_vosk_session open_raises old) = false
  /\ audio_stream (snd (create_fresh_vosk_session open_raises old)) = None
  /\ vosk_rec (snd (create_fresh_vosk_session open_raises old))
     = Some (Kaldi 16000).
Proof.
  intro old. apply (fresh_session_replaces_old open_raises old).
  intros s E. injection E as <-. split; reflexivity.
Defined.

Lemma create_fresh_vosk_session_closable (o : OpenOutcome) (self : Beebo) :
  closable self -> opens_closable o ->
  closable (snd (create_fresh_vosk_session o self)).
Proof.
  intros C O. destruct (destroy_vosk_session_closes self C) as [S _].
  unfold closable, create_fresh_vosk_session.
  destruct o as [| | new]; cbn; intros st E.
  - congruence.
  - congruence.
  - injection E as <-. exact O.
Qed.

Lemma check_wake_word_stream (text : string) (t : Q) (self : Beebo) :
  audio_stream (snd (_check_wake_word text t self)) = audio_stream self.
Proof.
  unfold _check_wake_word, _trigger_wake_response. cases; reflexivity.
Qed.

Lemma wake_word_loop_closable (frames : list WakeFrame) (self : Beebo) :
  closable self ->
  Forall (fun f => opens_closable (wake_reopen f)) frames ->
  closable (snd (wake_word_loop frames self)).
Proof.
  intros C F. revert self C.
  induction F as [| f rest Hf _ IH]; intros self C; cbn [wake_word_loop].
  - now destruct (negb _).
  - destruct (negb _); [exact C |].
    assert (Re : closable (snd (create_fresh_vosk_session (wake_reopen f)
                                  self)))
      by now apply create_fresh_vosk_session_closable.
    destruct (audio_stream self) as [s |] eqn:E; [| now apply IH].
    destruct (wake_heard f) as [| data answer]; [now apply IH |].
    pose proof (apply_software_gain_utterance data (mic_gain self) self) as G.
    destruct (apply_software_gain data (mic_gain self) self)
      as [processed self1].
    cbn [snd] in G. pose proof (f_equal ut_stream G) as Gs. cbn in Gs.
    assert (C1 : closable self1) by (unfold closable in *; now rewrite Gs).
    destruct (vosk_rec self1).
    2:{ apply IH. now apply create_fresh_vosk_session_closable. }
    set (text := match answer with
                 | final_result text => py_strip (py_lower text)
                 | partial_result partial => py_strip (py_lower partial)
                 end).
    destruct (truthy text); [| now apply IH].
    pose proof (check_wake_word_stream text (wake_clock f) self1) as W.
    destruct (_check_wake_word text (wake_clock f) self1) as [hit self2].
    cbn [snd] in W.
    assert (C2 : closable self2) by (unfold closable in *; now rewrite W).
    destruct hit; [exact C2 | now apply IH].
Qed.

Lemma listening_turn_stream (f : ListenFrame) (self : Beebo) :
  audio_stream (snd (listening_turn f self)) = audio_stream self.
Proof.
  unfold listening_turn.
  assert (T : forall t s, audio_stream (snd (_check_speech_timeouts t s))
                          = audio_stream s)
    by (intros; unfold _check_speech_timeouts; cases; reflexivity).
  destruct (audio_stream self) eqn:E; [| now rewrite T].
  destruct (listen_heard f) as [| data answer]; [now rewrite T |].
  pose proof (apply_software_gain_utterance data (mic_gain self) self) as G.
  destruct (apply_software_gain data (mic_gain self) self) as [processed self1].
  cbn [snd] in G. pose proof (f_equal ut_stream G) as Gs. cbn in Gs.
  rewrite E in Gs. rewrite <- Gs.
  destruct (vosk_rec _); [| now rewrite T].
  destruct answer; cases; rewrite ?T; cbn;
    unfold _process_final_speech, _process_partial_speech; cases; reflexivity.
Qed.

Lemma listening_loop_stream (frames : list ListenFrame) (self : Beebo) :
  audio_stream (snd (listening_loop frames self)) = audio_stream self.
Proof.
  revert self. induction frames as [| f rest IH]; intro self; cbn.
  - destruct (current_state self); reflexivity.
  - destruct (current_state self); try reflexivity.
    pose proof (listening_turn_stream f self) as T.
    destruct (listening_turn f self) as [stop self1]. cbn [snd] in T.
    destruct stop; [exact T |]. now rewrite IH.
Qed.

(** The inputs of a pass in which every stream the device gives can be
    closed. *)
Definition device_sound (w : VoiceInputs) : Prop :=
  opens_closable (session_open w)
  /\ Forall (fun f => opens_closable (wake_reopen f)) (wake_frames w).

(** X5. A pass of the voice worker that begins with no stream open ends
    with no stream open, in every voice mode and whatever it hears, when
    the streams the device gives can be closed: the microphone is held only
    inside a pass. *)
Theorem voice_pass_releases_microphone (w : VoiceInputs) (self self' : Beebo) :
  audio_stream self = None ->
  device_sound w ->
  _voice_thread_pass w self = (loop_left, self') ->
  audio_stream self' = None.
Proof.
  intros N [So Sw]. unfold _voice_thread_pass.
  assert (C : closable self) by (intros s E; congruence).
  destruct (voice_mode self).
  - intro E. injection E as <-. exact N.
  - unfold _handle_wake_word_detection.
    assert (Go : forall s1,
               (let (ok, self0) := create_fresh_vosk_session (session_open w) s1 in
                if negb ok then (loop_left, self0)
                else match wake_word_loop (wake_frames w) self0 with
                     | (loop_left, self1) =>
                         (loop_left, destroy_vosk_session self1)
                     | (loop_waiting, self1) => (loop_waiting, self1)
                     end) = (loop_left, self') ->
               s1 = self -> audio_stream self' = None).
    { intros s1 E ->.
      pose proof (create_fresh_vosk_session_outcome (session_open w) self C)
        as F.
      pose proof (create_fresh_vosk_session_closable (session_open w) self C So)
        as Cf.
      cbv zeta in F.
      destruct (create_fresh_vosk_session (session_open w) self) as [ok fresh].
      cbn [fst snd] in *.
      destruct ok; cbn [negb] in E.
      - pose proof (wake_word_loop_closable (wake_frames w) fresh Cf Sw) as Cl.
        destruct (wake_word_loop (wake_frames w) fresh) as [[|] self1];
          [| discriminate E].
        injection E as <-. now apply destroy_vosk_session_closes.
      - injection E as <-.
        destruct (session_open w); destruct F as (F1 & F2 & _);
          [exact F2 | exact F2 | discriminate F1]. }
    destruct (current_state self); intro E;
      try (injection E as <-; exact N); now apply (Go self).
  - destruct (_handle_speech_recognition _ _ _ _ self) as [[|] self1] eqn:H;
      intro E; [| discriminate E].
    injection E as <-. cbn [audio_stream with_voice_mode].
    revert H. unfold _handle_speech_recognition.
    assert (Fin : forall s, closable s ->
              audio_stream (destroy_vosk_session (save_recorded_audio s)) = None).
    { intros s Cs. apply destroy_vosk_session_closes.
      unfold save_recorded_audio. destruct (current_audio_buffer s); exact Cs. }
    destruct (current_state self);
      try (intro H; injection H as <-; now apply Fin).
    pose proof (create_fresh_vosk_session_closable (session_open w) self C So)
      as Cf.
    destruct (create_fresh_vosk_session (session_open w) self) as [ok fresh].
    cbn [snd] in Cf.
    destruct ok; cbn [negb].
    + match goal with
      | |- context [listening_loop ?fr ?s0] =>
          pose proof (listening_loop_stream fr s0) as L;
          destruct (listening_loop fr s0) as [[|] self2]
      end; intro H; [| discriminate H].
      injection H as <-. apply Fin. cbn [snd] in L.
      intros s E. apply Cf. rewrite <- E, L. reflexivity.
    + intro H. injection H as <-. apply Fin. exact Cf.
Qed.

(** A listening pass on a sound device that hears nothing for five
    seconds. *)
Lemma voice_pass_releases_microphone_witness :
  let w := mkVoiceInputs (opened (mkStream false false)) [] 1000 1000
             [mkListenFrame (10051 # 10) read_raises] in
  audio_stream (snd (_voice_thread_pass w heard_in_standby)) = None.
Proof.
  intro w.
  apply (voice_pass_releases_microphone w heard_in_standby
           (snd (_voice_thread_pass w heard_in_standby))).
  - reflexivity.
  - split; [split; reflexivity | constructor].
  - vm_compute. reflexivity.
Defined.

(** ** State changes *)

Lemma SystemState_eqb_eq (a b : SystemState) :
  SystemState_eqb a b = true <-> a = b.
Proof. destruct a, b; cbn; split; intro H; congruence. Qed.

(** X6. [set_state] is idempotent: asking again for the state just set,
    at any later clock, changes nothing. *)
Theorem set_state_idempotent (now later : Q) (new_state : SystemState)
    (self : Beebo) :
  set_state later new_state (set_state now new_state self)
  = set_state now new_state self.
Proof.
  unfold set_state at 1.
  rewrite set_state_arrives.
  assert (E : SystemState_eqb new_state new_state = true)
    by now apply SystemState_eqb_eq.
  now rewrite E.
Qed.

(** The fields [set_state] keeps for its own book. *)
Lemma set_voice_mode_book (mode : VoiceMode) (self : Beebo) :
  previous_state (set_voice_mode mode self) = previous_state self
  /\ last_activity_time (set_voice_mode mode self) = last_activity_time self.
Proof. unfold set_voice_mode, start_voice_thread. cases; split; reflexivity. Qed.

Lemma stop_voice_system_book (self : Beebo) :
  previous_state (stop_voice_system self) = previous_state self
  /\ last_activity_time (stop_voice_system self) = last_activity_time self.
Proof.
  unfold stop_voice_system, destroy_vosk_session. cases; split; reflexivity.
Qed.

(** X7. A [set_state] that changes the state records the state it leaves
    in [previous_state], and resets the activity timer to the clock exactly
    when the new state is WAKING_UP, LISTENING or SPEAKING. *)
Theorem set_state_book (now : Q) (new_state : SystemState) (self : Beebo) :
  new_state <> current_state self ->
  previous_state (set_state now new_state self) = current_state self
  /\ last_activity_time (set_state now new_state self)
     = match new_state with
       | WAKING_UP | LISTENING | SPEAKING => now
       | _ => last_activity_time self
       end.
Proof.
  intro N. unfold set_state.
  destruct (SystemState_eqb new_state (current_state self)) eqn:E.
  - apply SystemState_eqb_eq in E. contradiction.
  - destruct new_state; cbn [wake_word_active with_last_activity_time
      with_current_state with_previous_state];
      try destruct (wake_word_active self);
      match goal with
      | |- context [set_voice_mode ?m ?s] =>
          destruct (set_voice_mode_book m s) as [-> ->]
      | |- context [stop_voice_system ?s] =>
          destruct (stop_voice_system_book s) as [-> ->]
      | _ => idtac
      end; split; reflexivity.
Qed.

Lemma set_state_book_witness :
  previous_state (set_state 1010 PROCESSING heard_in_standby) = LISTENING
  /\ last_activity_time (set_state 1010 PROCESSING heard_in_standby)
     = last_activity_time heard_in_standby.
Proof.
  apply (set_state_book 1010 PROCESSING heard_in_standby). discriminate.
Defined.


(** ** One voice worker *)

Definition is_voice_thread (t : Thread) : bool :=
  match t with th_voice_thread => true | _ => false end.

(** The voice workers started so far. *)
Definition voice_workers (self : Beebo) : nat :=
  List.length (filter is_voice_thread (threads self)).

(** A worker was started exactly if [voice_thread_running] says so, and
    then only one. *)
Definition one_worker (self : Beebo) : Prop :=
  voice_workers self = if voice_thread_running self then 1%nat else 0%nat.

Lemma one_worker_same (a b : Beebo) :
  voice_thread_running b = voice_thread_running a ->
  threads b = threads a ->
  one_worker a -> one_worker b.
Proof. unfold one_worker, voice_workers. now intros -> ->. Qed.

Lemma one_worker_other_thread (t : Thread) (self : Beebo) :
  is_voice_thread t = false ->
  one_worker self -> one_worker (start_thread t self).
Proof.
  unfold one_worker, voice_workers, start_thread. cbn. intros T W.
  rewrite filter_app, length_app. cbn. rewrite T. cbn. lia.
Qed.

Lemma destroy_vosk_session_workers (self : Beebo) :
  voice_thread_running (destroy_vosk_session self) = voice_thread_running self
  /\ threads (destroy_vosk_session self) = threads self.
Proof. unfold destroy_vosk_session. cases; split; reflexivity. Qed.

Lemma set_voice_mode_one_worker (mode : VoiceMode) (self : Beebo) :
  one_worker self -> one_worker (set_voice_mode mode self).
Proof.
  unfold set_voice_mode, start_voice_thread, one_worker, voice_workers.
  cbn. intro W.
  destruct (voice_thread_running self) eqn:R; destruct mode; cbn;
    rewrite ?R; try exact W.
  all: rewrite filter_app, length_app, W; reflexivity.
Qed.

Lemma stop_voice_system_one_worker (self : Beebo) :
  one_worker self -> one_worker (stop_voice_system self).
Proof.
  unfold stop_voice_system.
  destruct (destroy_vosk_session_workers (with_voice_mode vm_off self))
    as [R T].
  now apply one_worker_same.
Qed.

Lemma set_state_one_worker (now : Q) (new_state : SystemState)
    (self : Beebo) :
  one_worker self -> one_worker (set_state now new_state self).
Proof.
  intro W. unfold set_state.
  destruct (SystemState_eqb new_state (current_state self)); [exact W |].
  destruct new_state; cbn [wake_word_active with_last_activity_time
    with_current_state with_previous_state];
    try destruct (wake_word_active self);
    try apply set_voice_mode_one_worker;
    try apply stop_voice_system_one_worker;
    exact W.
Qed.

(** X8. However the state machine is driven, the voice worker is started
    at most once and [voice_thread_running] tells whether it was: the
    relation holds when the object is made and every operation of the main
    loop keeps it. *)
Theorem one_voice_worker (now : Q) (text : string) (checked : bool)
    (mode : VoiceMode) (new_state : SystemState) (picture : option Image)
    (self : Beebo) :
  one_worker (init picture)
  /\ (one_worker self ->
      one_worker (set_voice_mode mode self)
      /\ one_worker (set_state now new_state self)
      /\ one_worker (toggle_wake_word checked self)
      /\ one_worker (power_on now self)
      /\ one_worker (power_off self)
      /\ one_worker (on_wake_animation_complete now self)
      /\ one_worker (start_manual_listening now self)
      /\ one_worker (stop_listening now self)
      /\ one_worker (speak now text self)
      /\ one_worker (speak_and_return_to_listening now text self)
      /\ one_worker (_on_tts_complete now self)
      /\ one_worker (on_speak_end_complete now self)).
Proof.
  split; [reflexivity |]. intro W.
  assert (S : forall t n s, one_worker s -> one_worker (set_state t n s))
    by (intros; now apply set_state_one_worker).
  assert (M : forall m s, one_worker s -> one_worker (set_voice_mode m s))
    by (intros; now apply set_voice_mode_one_worker).
  assert (D : forall s, one_worker s -> one_worker (destroy_vosk_session s)).
  { intros s Ws. destruct (destroy_vosk_session_workers s) as [R T].
    now apply (one_worker_same s). }
  repeat split.
  - now apply M.
  - now apply S.
  - unfold toggle_wake_word. cbn [wake_word_active with_wake_word_active].
    destruct checked; cases; try apply M;
      try apply stop_voice_system_one_worker; exact W.
  - unfold power_on. cases; try apply S; exact W.
  - unfold power_off. cases; try exact W;
      unfold play_gif; cases;
      (eapply one_worker_same;
       [| | apply (stop_voice_system_one_worker self W)]; reflexivity).
  - unfold on_wake_animation_complete. cases; [exact W | now apply S].
  - unfold start_manual_listening. cases; try apply S; exact W.
  - unfold stop_listening. cases; try (apply S, D); exact W.
  - unfold speak. cases; [exact W |].
    apply one_worker_other_thread; [reflexivity |].
    eapply one_worker_same; [reflexivity | reflexivity |].
    apply S. eapply one_worker_same; [reflexivity | reflexivity | exact W].
  - unfold speak_and_return_to_listening. cases; [exact W |].
    apply one_worker_other_thread; [reflexivity |].
    eapply one_worker_same; [reflexivity | reflexivity |].
    apply S. eapply one_worker_same; [reflexivity | reflexivity | exact W].
  - unfold _on_tts_complete. cases;
      try (eapply one_worker_same; [reflexivity | reflexivity | exact W]);
      apply S;
      (eapply one_worker_same; [reflexivity | reflexivity | exact W]).
  - unfold on_speak_end_complete. cases;
      apply S;
      (eapply one_worker_same; [reflexivity | reflexivity | exact W]).
Qed.

Lemma one_voice_worker_witness :
  one_worker (set_voice_mode vm_listening asleep)
  /\ one_worker (set_state 10 LISTENING asleep)
  /\ one_worker (toggle_wake_word false asleep)
  /\ one_worker (power_on 10 asleep)
  /\ one_worker (power_off asleep)
  /\ one_worker (on_wake_animation_complete 10 asleep)
  /\ one_worker (start_manual_listening 10 asleep)
  /\ one_worker (stop_listening 10 asleep)
  /\ one_worker (speak 10 "Torch activated" asleep)
  /\ one_worker (speak_and_return_to_listening 10 "Torch activated" asleep)
  /\ one_worker (_on_tts_complete 10 asleep)
  /\ one_worker (on_speak_end_complete 10 asleep).
Proof.
  apply (one_voice_worker 10 "Torch activated" false vm_listening LISTENING
           None asleep).
  reflexivity.
Defined.


(** ** Wake-word switch, power and manual listening *)

(** X9. Switching wake-word detection off never leaves the voice mode at
    wake_word and touches no other mode; switching it on puts the voice
    mode at wake_word in SLEEPING and STANDBY, at listening in LISTENING,
    and leaves it in the other states. The state itself is never
    changed. *)
Theorem toggle_wake_word_modes (self : Beebo) :
  (wake_word_active (toggle_wake_word false self) = false
   /\ current_state (toggle_wake_word false self) = current_state self
   /\ voice_mode (toggle_wake_word false self)
      = match voice_mode self with
        | vm_wake_word => vm_off
        | mode => mode
        end)
  /\ (wake_word_active (toggle_wake_word true self) = true
      /\ current_state (toggle_wake_word true self) = current_state self
      /\ voice_mode (toggle_wake_word true self)
         = match current_state self with
           | SLEEPING | STANDBY => vm_wake_word
           | LISTENING => vm_listening
           | _ => voice_mode self
           end).
Proof.
  split.
  - unfold toggle_wake_word. cbn [wake_word_active with_wake_word_active
      voice_mode].
    destruct (voice_mode self) eqn:M; try (repeat split; now rewrite ?M).
    pose proof (stop_voice_system_lifecycle (with_wake_word_active false self))
      as L.
    repeat split.
    + exact (f_equal lc_wake_word_active L).
    + exact (f_equal lc_state L).
    + exact (f_equal lc_mode L).
  - unfold toggle_wake_word. cbn [wake_word_active with_wake_word_active
      current_state].
    destruct (current_state self) eqn:S;
      try (repeat split; now rewrite ?S);
      match goal with
      | |- context [set_voice_mode ?m ?s] =>
          pose proof (set_voice_mode_lifecycle m s) as L
      end;
      (repeat split;
       [exact (f_equal lc_wake_word_active L)
       | exact (eq_trans (f_equal lc_state L) S)
       | exact (f_equal lc_mode L)]).
Qed.

(** X10. The wake word accepted while SLEEPING leaves the state as it is,
    sets the deferred-listen flag and posts the power-on; the power-on
    then goes to WAKING_UP with the voice mode untouched, and the end of
    the wake animation goes to LISTENING with the voice mode at listening
    and the flag cleared. A power-on with no flag set ends in STANDBY. *)
Theorem wake_from_sleep (text : string) (t t_on t_done : Q) (self : Beebo) :
  current_state self = SLEEPING ->
  (py_in (py_lower (config_wake_word self)) text = true ->
   (wake_word_cooldown self <= t - wake_word_detected_time self)%Q ->
   let heard := snd (_check_wake_word text t self) in
   let waking := power_on t_on heard in
   let awake := on_wake_animation_complete t_done waking in
   fst (_check_wake_word text t self) = true
   /\ (current_state heard = SLEEPING
       /\ should_listen_after_wake heard = true
       /\ after_queue heard = (after_queue self ++ [(0, cb_power_on)])%list)
   /\ (current_state waking = WAKING_UP
       /\ voice_mode waking = voice_mode self)
   /\ (current_state awake = LISTENING
       /\ voice_mode awake = vm_listening
       /\ should_listen_after_wake awake = false))
  /\ (should_listen_after_wake self = false ->
      current_state (on_wake_animation_complete t_done (power_on t_on self))
      = STANDBY).
Proof.
  intro S. split.
  - intros In Cd heard waking awake. subst awake waking heard.
    unfold _check_wake_word. rewrite In.
    apply Qltb_ge in Cd. rewrite Cd.
    unfold _trigger_wake_response. cbn [current_state log with_console
      with_wake_word_detected_time fst snd]. rewrite S.
    set (heard := after 0 cb_power_on _).
    assert (Hs : current_state heard = SLEEPING) by exact S.
    split; [reflexivity |]. split; [repeat split; exact S |].
    unfold power_on. rewrite Hs.
    pose proof (set_state_lifecycle t_on WAKING_UP heard
                  ltac:(rewrite Hs; discriminate)) as L.
    set (waking := set_state t_on WAKING_UP heard) in *.
    assert (F : should_listen_after_wake waking = true).
    { subst waking. unfold set_state. rewrite Hs. reflexivity. }
    split; [split; [exact (f_equal lc_state L) | exact (f_equal lc_mode L)] |].
    unfold on_wake_animation_complete. rewrite F. repeat split.
  - intro F. unfold power_on. rewrite S.
    unfold on_wake_animation_complete.
    assert (F' : should_listen_after_wake (set_state t_on WAKING_UP self)
                 = false)
      by (unfold set_state; rewrite S; exact F).
    rewrite F'. apply set_state_arrives.
Qed.

Lemma wake_from_sleep_witness :
  let heard := snd (_check_wake_word "beebo" 1000 asleep) in
  let waking := power_on 1001 heard in
  let awake := on_wake_animation_complete 1002 waking in
  (fst (_check_wake_word "beebo" 1000 asleep) = true
   /\ (current_state heard = SLEEPING
       /\ should_listen_after_wake heard = true
       /\ after_queue heard = (after_queue asleep ++ [(0, cb_power_on)])%list)
   /\ (current_state waking = WAKING_UP
       /\ voice_mode waking = voice_mode asleep)
   /\ (current_state awake = LISTENING
       /\ voice_mode awake = vm_listening
       /\ should_listen_after_wake awake = false))
  /\ current_state (on_wake_animation_complete 1002 (power_on 1001 asleep))
     = STANDBY.
Proof.
  cbv zeta. split.
  - apply (wake_from_sleep "beebo" 1000 1001 1002 asleep);
      reflexivity || (vm_compute; discriminate).
  - apply (wake_from_sleep "beebo" 1000 1001 1002 asleep); reflexivity.
Defined.




(** X12. Manual listening is refused, with the object left as it is, while
    SLEEPING and while a speaking sequence is active; otherwise it puts the
    state at LISTENING, and the voice mode at listening unless the state
    was LISTENING already. *)
Theorem manual_listening (now : Q) (self : Beebo) :
  (current_state self = SLEEPING \/ is_speaking self = true ->
   start_manual_listening now self = self)
  /\ (current_state self <> SLEEPING -> is_speaking self = false ->
      current_state (start_manual_listening now self) = LISTENING
      /\ (current_state self <> LISTENING ->
          voice_mode (start_manual_listening now self) = vm_listening)).
Proof.
  unfold start_manual_listening. split.
  - intros [S | Sp]; [now rewrite S |].
    rewrite Sp. now destruct (current_state self).
  - intros N Sp. rewrite Sp.
    assert (E : match current_state self with
                | SLEEPING => self
                | _ => set_state now LISTENING self
                end = set_state now LISTENING self)
      by (destruct (current_state self); try reflexivity; contradiction).
    rewrite E. split; [apply set_state_arrives |].
    intro NL.
    exact (f_equal lc_mode
             (set_state_lifecycle now LISTENING self
                ltac:(intro H; apply NL; now symmetry))).
Qed.

Lemma manual_listening_witness :
  start_manual_listening 1000 asleep = asleep
  /\ (current_state (start_manual_listening 1000 standby) = LISTENING
      /\ voice_mode (start_manual_listening 1000 standby) = vm_listening).
Proof.
  split.
  - apply (manual_listening 1000 asleep). left. reflexivity.
  - destruct (manual_listening 1000 standby) as [_ M].
    destruct M as [S V]; [discriminate | reflexivity |].
    split; [exact S | apply V; discriminate].
Defined.


(** ** The speaking sequence *)

(** What the colour animation never writes. *)
Record Sequence : Type := mkSequence {
  sq_lifecycle : Lifecycle;
  sq_is_speaking : bool;
  sq_phase : option SpeakingPhase;
  sq_return : bool
}.

Definition sequence (self : Beebo) : Sequence :=
  mkSequence (lifecycle self) (is_speaking self) (speaking_phase self)
    (return_to_listening_after_speak self).

Lemma sequence_fields (self : Beebo) (st : SystemState) (m : VoiceMode)
    (w i : bool) (p : option SpeakingPhase) (r : bool) :
  sequence self = mkSequence (mkLifecycle st m w) i p r ->
  current_state self = st /\ voice_mode self = m
  /\ wake_word_active self = w /\ is_speaking self = i
  /\ speaking_phase self = p /\ return_to_listening_after_speak self = r.
Proof.
  unfold sequence, lifecycle. intro H. injection H as -> -> -> -> -> ->.
  repeat split.
Qed.

Lemma display_speaking_face_sequence (self : Beebo) :
  sequence (display_speaking_face self) = sequence self.
Proof. unfold display_speaking_face, play_gif. cases; reflexivity. Qed.

Lemma update_speaking_colors_sequence (now : Q) (self : Beebo) :
  sequence (update_speaking_colors now self) = sequence self.
Proof.
  unfold update_speaking_colors, display_speaking_face_with_color, play_gif.
  cases; reflexivity.
Qed.

Lemma start_color_animation_delayed_sequence (t1 t2 t3 : Q)
    (timeline : list Q) (self : Beebo) :
  sequence (start_color_animation_delayed t1 t2 t3 timeline self)
  = sequence self.
Proof.
  unfold start_color_animation_delayed.
  destruct (tts_start_time self);
    [| now rewrite display_speaking_face_sequence].
  destruct (_ <? _); [| apply display_speaking_face_sequence].
  now rewrite update_speaking_colors_sequence.
Qed.

(** The end of the transition-in clip, in the speaking state, starts the
    speaking phase and changes nothing else of the sequence. *)
Lemma on_speak_transition_complete_sequence (t1 t2 t3 : Q) (self : Beebo) :
  current_state self = SPEAKING ->
  sequence (on_speak_transition_complete t1 t2 t3 self)
  = mkSequence (lifecycle self) (is_speaking self) (Some speaking)
      (return_to_listening_after_speak self).
Proof.
  intro S. unfold on_speak_transition_complete. rewrite S.
  destruct (pending_volume_timeline _) as [[| v tl] |];
    rewrite ?display_speaking_face_sequence,
      ?start_color_animation_delayed_sequence; reflexivity.
Qed.

(** The object after [speak] or [speak_and_return_to_listening], from an
    object that was not speaking. *)
Lemma speak_sequence (now : Q) (text : string) (back : bool) (self : Beebo) :
  is_speaking self = false ->
  current_state self <> SPEAKING ->
  let spoken :=
    if back then speak_and_return_to_listening now text self
    else speak now text self in
  sequence spoken
  = mkSequence (mkLifecycle SPEAKING vm_off (wake_word_active self)) true
      (Some transition_to_speak) back
  /\ threads spoken = (threads self ++ [th_speak_thread text])%list.
Proof.
  intros Sp N.
  assert (G : forall s, is_speaking s = true ->
                speaking_phase s = Some transition_to_speak ->
                return_to_listening_after_speak s = back ->
                current_state s = current_state self ->
                wake_word_active s = wake_word_active self ->
                threads s = threads self ->
                forall m,
                let spoken :=
                  start_thread (th_speak_thread text)
                    (log m (set_state now SPEAKING s)) in
                sequence spoken
                = mkSequence (mkLifecycle SPEAKING vm_off (wake_word_active self))
                    true (Some transition_to_speak) back
                /\ threads spoken = (threads self ++ [th_speak_thread text])%list).
  { intros s I P R C W T m spoken. subst spoken.
    pose proof (set_state_lifecycle now SPEAKING s
                  ltac:(rewrite C; congruence)) as L.
    unfold sequence, start_thread, log. cbn.
    assert (K : is_speaking (set_state now SPEAKING s) = is_speaking s
                /\ speaking_phase (set_state now SPEAKING s) = speaking_phase s
                /\ return_to_listening_after_speak (set_state now SPEAKING s)
                   = return_to_listening_after_speak s
                /\ threads (set_state now SPEAKING s) = threads s).
    { unfold set_state, set_voice_mode, start_voice_thread. cbn.
      cases; repeat split. }
    destruct K as (K1 & K2 & K3 & K4).
    unfold lifecycle in L. rewrite K1, K2, K3, K4, I, P, R, T.
    split; [| reflexivity]. f_equal. etransitivity; [exact L |].
    cbn. now rewrite W. }
  destruct back; cbv zeta;
    unfold speak, speak_and_return_to_listening; rewrite Sp;
    apply G; reflexivity.
Qed.

(** X13. A whole speaking sequence, from an object that is neither
    speaking nor in the SPEAKING state: [speak] enters SPEAKING with the
    voice mode off and starts one TTS thread; the end of the transition-in
    clip starts the speaking phase; the end of the playback starts the
    transition-out; the end of that clip puts the state at STANDBY, the
    voice mode at wake_word when wake-word detection is enabled and off
    when it is not, and ends the sequence. *)
Theorem speaking_sequence_to_standby (t0 t1 t2 t3 t4 t5 : Q) (text : string)
    (self : Beebo) :
  is_speaking self = false ->
  current_state self <> SPEAKING ->
  let s1 := speak t0 text self in
  let s2 := on_speak_transition_complete t1 t2 t3 s1 in
  let s3 := _on_tts_complete t4 s2 in
  let s4 := on_speak_end_complete t5 s3 in
  (current_state s1 = SPEAKING /\ voice_mode s1 = vm_off
   /\ speaking_phase s1 = Some transition_to_speak
   /\ threads s1 = (threads self ++ [th_speak_thread text])%list)
  /\ (current_state s2 = SPEAKING /\ speaking_phase s2 = Some speaking)
  /\ (current_state s3 = SPEAKING /\ is_speaking s3 = true
      /\ speaking_phase s3 = Some transition_to_standby
      /\ color_animation_active s3 = false)
  /\ (current_state s4 = STANDBY /\ is_speaking s4 = false
      /\ speaking_phase s4 = None
      /\ voice_mode s4
         = if wake_word_active self then vm_wake_word else vm_off).
Proof.
  intros Sp N s1 s2 s3 s4.
  destruct (speak_sequence t0 text false self Sp N) as [Q1 T1].
  cbv zeta in Q1, T1. fold s1 in Q1, T1.
  destruct (sequence_fields _ _ _ _ _ _ _ Q1) as (C1 & M1 & W1 & I1 & P1 & R1).
  pose proof (on_speak_transition_complete_sequence t1 t2 t3 s1 C1) as Q2.
  fold s2 in Q2. unfold lifecycle in Q2. rewrite C1, M1, W1, I1, R1 in Q2.
  destruct (sequence_fields _ _ _ _ _ _ _ Q2) as (C2 & M2 & W2 & I2 & P2 & R2).
  assert (E3 : s3 = with_speaking_phase (Some transition_to_standby)
                      (with_color_animation_active false s2)).
  { subst s3. unfold _on_tts_complete.
    cbn [speaking_phase with_color_animation_active]. now rewrite P2. }
  assert (E4 : s4 = set_state t5 STANDBY
                      (with_is_speaking false (with_speaking_phase None s3))).
  { subst s4. unfold on_speak_end_complete.
    cbn [return_to_listening_after_speak with_is_speaking with_speaking_phase].
    rewrite E3. cbn. now rewrite R2. }
  set (ended := with_is_speaking false (with_speaking_phase None s3)) in E4.
  assert (Ce : current_state ended = SPEAKING)
    by (subst ended; rewrite E3; exact C2).
  assert (Me : voice_mode ended = vm_off)
    by (subst ended; rewrite E3; exact M2).
  assert (We : wake_word_active ended = wake_word_active self)
    by (subst ended; rewrite E3; exact W2).
  pose proof (set_state_lifecycle t5 STANDBY ended
                ltac:(rewrite Ce; discriminate)) as L4.
  rewrite <- E4 in L4.
  pose proof (f_equal lc_state L4) as C4. pose proof (f_equal lc_mode L4) as M4.
  cbn [lc_state lc_mode lifecycle] in C4, M4.
  rewrite We, Me in M4.
  assert (K : is_speaking s4 = false /\ speaking_phase s4 = None).
  { rewrite E4. unfold set_state, set_voice_mode, start_voice_thread. cbn.
    cases; split; reflexivity. }
  destruct K as [I4 P4].
  assert (C3 : current_state s3 = SPEAKING) by (rewrite E3; exact C2).
  assert (I3 : is_speaking s3 = true) by (rewrite E3; exact I2).
  assert (P3 : speaking_phase s3 = Some transition_to_standby)
    by (rewrite E3; reflexivity).
  assert (A3 : color_animation_active s3 = false) by (rewrite E3; reflexivity).
  repeat split; assumption.
Qed.

Lemma speaking_sequence_to_standby_witness :
  let s1 := speak 10 "Torch activated" standby in
  let s2 := on_speak_transition_complete 11 11 11 s1 in
  let s3 := _on_tts_complete 12 s2 in
  let s4 := on_speak_end_complete 13 s3 in
  (current_state s1 = SPEAKING /\ voice_mode s1 = vm_off
   /\ speaking_phase s1 = Some transition_to_speak
   /\ threads s1
      = (threads standby ++ [th_speak_thread "Torch activated"])%list)
  /\ (current_state s2 = SPEAKING /\ speaking_phase s2 = Some speaking)
  /\ (current_state s3 = SPEAKING /\ is_speaking s3 = true
      /\ speaking_phase s3 = Some transition_to_standby
      /\ color_animation_active s3 = false)
  /\ (current_state s4 = STANDBY /\ is_speaking s4 = false
      /\ speaking_phase s4 = None
      /\ voice_mode s4 = vm_wake_word).
Proof.
  apply (speaking_sequence_to_standby 10 11 11 11 12 13 "Torch activated"
           standby); [reflexivity | discriminate].
Defined.

(** X14. The same sequence begun by [speak_and_return_to_listening] ends in
    LISTENING with the voice mode at listening, and the
    return-to-listening flag is cleared again. *)
Theorem speaking_sequence_to_listening (t0 t1 t2 t3 t4 t5 : Q) (text : string)
    (self : Beebo) :
  is_speaking self = false ->
  current_state self <> SPEAKING ->
  let s1 := speak_and_return_to_listening t0 text self in
  let s2 := on_speak_transition_complete t1 t2 t3 s1 in
  let s3 := _on_tts_complete t4 s2 in
  let s4 := on_speak_end_complete t5 s3 in
  return_to_listening_after_speak s3 = true
  /\ current_state s4 = LISTENING /\ voice_mode s4 = vm_listening
  /\ is_speaking s4 = false /\ speaking_phase s4 = None
  /\ return_to_listening_after_speak s4 = false.
Proof.
  intros Sp N s1 s2 s3 s4.
  destruct (speak_sequence t0 text true self Sp N) as [Q1 T1].
  cbv zeta in Q1, T1. fold s1 in Q1, T1.
  destruct (sequence_fields _ _ _ _ _ _ _ Q1) as (C1 & M1 & W1 & I1 & P1 & R1).
  pose proof (on_speak_transition_complete_sequence t1 t2 t3 s1 C1) as Q2.
  fold s2 in Q2. unfold lifecycle in Q2. rewrite C1, M1, W1, I1, R1 in Q2.
  destruct (sequence_fields _ _ _ _ _ _ _ Q2) as (C2 & M2 & W2 & I2 & P2 & R2).
  assert (E3 : s3 = with_speaking_phase (Some transition_to_standby)
                      (with_color_animation_active false s2)).
  { subst s3. unfold _on_tts_complete.
    cbn [speaking_phase with_color_animation_active]. now rewrite P2. }
  set (ended := with_return_to_listening_after_speak false
                  (with_is_speaking false (with_speaking_phase None s3))).
  assert (E4 : s4 = set_state t5 LISTENING ended).
  { subst s4 ended. unfold on_speak_end_complete.
    cbn [return_to_listening_after_speak with_is_speaking with_speaking_phase].
    rewrite E3. cbn. now rewrite R2. }
  assert (Ce : current_state ended = SPEAKING)
    by (subst ended; rewrite E3; exact C2).
  pose proof (set_state_lifecycle t5 LISTENING ended
                ltac:(rewrite Ce; discriminate)) as L4.
  rewrite <- E4 in L4.
  pose proof (f_equal lc_state L4) as C4. pose proof (f_equal lc_mode L4) as M4.
  cbn [lc_state lc_mode lifecycle] in C4, M4.
  assert (K : is_speaking s4 = false /\ speaking_phase s4 = None
              /\ return_to_listening_after_speak s4 = false).
  { rewrite E4. unfold set_state, set_voice_mode, start_voice_thread. cbn.
    cases; repeat split. }
  destruct K as (I4 & P4 & R4).
  assert (R3 : return_to_listening_after_speak s3 = true)
    by (rewrite E3; exact R2).
  repeat split; assumption.
Qed.

Lemma speaking_sequence_to_listening_witness :
  let s1 := speak_and_return_to_listening 10 "Say that again" standby in
  let s2 := on_speak_transition_complete 11 11 11 s1 in
  let s3 := _on_tts_complete 12 s2 in
  let s4 := on_speak_end_complete 13 s3 in
  return_to_listening_after_speak s3 = true
  /\ current_state s4 = LISTENING /\ voice_mode s4 = vm_listening
  /\ is_speaking s4 = false /\ speaking_phase s4 = None
  /\ return_to_listening_after_speak s4 = false.
Proof.
  apply (speaking_sequence_to_listening 10 11 11 11 12 13 "Say that again"
           standby); [reflexivity | discriminate].
Defined.

(** X15. When the playback ends before the transition-in clip does, the
    sequence ends at once: [_on_tts_complete] puts the state at STANDBY and
    clears [is_speaking], the speaking phase stays at the transition in,
    and the late end of the clip changes nothing. *)
Theorem playback_ends_before_transition (t0 t1 t2 t3 t4 : Q) (text : string)
    (self : Beebo) :
  is_speaking self = false ->
  current_state self <> SPEAKING ->
  let s1 := speak t0 text self in
  let s2 := _on_tts_complete t4 s1 in
  current_state s2 = STANDBY /\ is_speaking s2 = false
  /\ speaking_phase s2 = Some transition_to_speak
  /\ on_speak_transition_complete t1 t2 t3 s2 = s2.
Proof.
  intros Sp N s1 s2.
  destruct (speak_sequence t0 text false self Sp N) as [Q1 T1].
  cbv zeta in Q1, T1. fold s1 in Q1, T1.
  destruct (sequence_fields _ _ _ _ _ _ _ Q1) as (C1 & M1 & W1 & I1 & P1 & R1).
  set (ended := with_is_speaking false (with_color_animation_active false s1)).
  assert (E2 : s2 = set_state t4 STANDBY ended).
  { subst s2 ended. unfold _on_tts_complete.
    cbn [speaking_phase with_color_animation_active
         return_to_listening_after_speak with_is_speaking].
    now rewrite P1, R1. }
  assert (C2 : current_state s2 = STANDBY)
    by (rewrite E2; apply set_state_arrives).
  assert (K : is_speaking s2 = false
              /\ speaking_phase s2 = Some transition_to_speak).
  { rewrite E2. unfold set_state, set_voice_mode, start_voice_thread. cbn.
    cases; split; reflexivity || exact P1. }
  destruct K as [I2 P2]. repeat split; try assumption.
  unfold on_speak_transition_complete. now rewrite C2.
Qed.

Lemma playback_ends_before_transition_witness :
  let s1 := speak 10 "Torch activated" standby in
  let s2 := _on_tts_complete 11 s1 in
  current_state s2 = STANDBY /\ is_speaking s2 = false
  /\ speaking_phase s2 = Some transition_to_speak
  /\ on_speak_transition_complete 12 12 12 s2 = s2.
Proof.
  apply (playback_ends_before_transition 10 12 12 12 11 "Torch activated"
           standby); [reflexivity | discriminate].
Defined.


(** ** Wake spotting over a pass *)

(** What the wake spotter decides on and what it writes. *)
Record Spotter : Type := mkSpotter {
  sp_lifecycle : Lifecycle;
  sp_detected : Q;
  sp_cooldown : Q;
  sp_word : string;
  sp_flag : bool;
  sp_queue : list (Z * Callback)
}.

Definition spotter (self : Beebo) : Spotter :=
  mkSpotter (lifecycle self) (wake_word_detected_time self)
    (wake_word_cooldown self) (config_wake_word self)
    (should_listen_after_wake self) (after_queue self).

(** The text the wake-word loop checks for a frame. *)
Definition wake_text (answer : Recognition) : string :=
  match answer with
  | final_result text => py_strip (py_lower text)
  | partial_result partial => py_strip (py_lower partial)
  end.

(** A frame in which the wake word is not heard: the read raises, or the
    text does not contain the word. *)
Definition lacks_wake_word (word : string) (f : WakeFrame) : bool :=
  match wake_heard f with
  | read_raises => true
  | read_returns _ answer => negb (py_in word (wake_text answer))
  end.

Lemma apply_software_gain_spotter (d : list byte) (g : Q) (self : Beebo) :
  spotter (snd (apply_software_gain d g self)) = spotter self.
Proof. unfold apply_software_gain. cases; reflexivity. Qed.

Lemma create_fresh_vosk_session_spotter (o : OpenOutcome) (self : Beebo) :
  spotter (snd (create_fresh_vosk_session o self)) = spotter self.
Proof.
  unfold create_fresh_vosk_session, destroy_vosk_session. cases; reflexivity.
Qed.

Lemma destroy_vosk_session_spotter (self : Beebo) :
  spotter (destroy_vosk_session self) = spotter self.
Proof. unfold destroy_vosk_session. cases; reflexivity. Qed.

Lemma check_wake_word_absent (text : string) (t : Q) (self : Beebo) :
  py_in (py_lower (config_wake_word self)) text = false ->
  _check_wake_word text t self = (false, self).
Proof. intro A. unfold _check_wake_word. now rewrite A. Qed.

(** X16. Frames in which the configured wake word is not heard never
    trigger anything: whatever else they hold, and however often the
    session has to be reopened, the wake-word loop leaves the state, the
    voice mode, the recorded detection time, the deferred-listen flag and
    the main loop's queue as they were. *)
Theorem no_wake_word_no_trigger (frames : list WakeFrame) (self : Beebo) :
  Forall (fun f =>
            lacks_wake_word (py_lower (config_wake_word self)) f = true)
         frames ->
  spotter (snd (wake_word_loop frames self)) = spotter self.
Proof.
  intro F. remember (py_lower (config_wake_word self)) as word eqn:Ew.
  assert (Inv : forall s, spotter s = spotter self ->
                  spotter (snd (wake_word_loop frames s)) = spotter self).
  { induction F as [| f rest Hf _ IH]; intros s Es; cbn [wake_word_loop].
    - now destruct (negb _).
    - destruct (negb _); [exact Es |].
      assert (Re : spotter (snd (create_fresh_vosk_session (wake_reopen f) s))
                   = spotter self)
        by now rewrite create_fresh_vosk_session_spotter.
      destruct (audio_stream s); [| now apply IH].
      unfold lacks_wake_word in Hf.
      destruct (wake_heard f) as [| data answer]; [now apply IH |].
      pose proof (apply_software_gain_spotter data (mic_gain s) s) as G.
      destruct (apply_software_gain data (mic_gain s) s) as [processed s1].
      cbn [snd] in G. rewrite Es in G.
      destruct (vosk_rec s1).
      2:{ apply IH. now rewrite create_fresh_vosk_session_spotter. }
      fold (wake_text answer).
      destruct (truthy (wake_text answer)); [| now apply IH].
      rewrite check_wake_word_absent; [now apply IH |].
      pose proof (f_equal sp_word G) as Gw. cbn [sp_word spotter] in Gw.
      rewrite Gw, <- Ew. now apply negb_true_iff. }
  now apply Inv.
Qed.

Lemma no_wake_word_no_trigger_witness :
  spotter
    (snd (wake_word_loop
            [mkWakeFrame (read_returns [x00; x00] (partial_result "hey bee"))
               1000 open_raises;
             mkWakeFrame read_raises 1001 (opened (mkStream false false));
             mkWakeFrame (read_returns [x00; x00] (final_result "be bop"))
               1002 open_raises]
            standby))
  = spotter standby.
Proof.
  apply (no_wake_word_no_trigger
           [mkWakeFrame (read_returns [x00; x00] (partial_result "hey bee"))
              1000 open_raises;
            mkWakeFrame read_raises 1001 (opened (mkStream false false));
            mkWakeFrame (read_returns [x00; x00] (final_result "be bop"))
              1002 open_raises]
           standby).
  repeat constructor.
Defined.

(** A frame that is read and in which something other than the wake word
    is heard. *)
Definition hears_other (word : string) (f : WakeFrame) : bool :=
  match wake_heard f with
  | read_raises => false
  | read_returns _ answer => negb (py_in word (wake_text answer))
  end.

Lemma wake_word_loop_hears (s : Stream) (f : WakeFrame) (data : list byte)
    (answer : Recognition) (rest : list WakeFrame) (self : Beebo)
    (quiet : list WakeFrame) :
  voice_mode self = vm_wake_word -> current_state self = STANDBY ->
  Forall (fun q => hears_other (py_lower (config_wake_word self)) q = true)
         quiet ->
  wake_heard f = read_returns data answer ->
  truthy (wake_text answer) = true ->
  forall start : Beebo,
    spotter start = spotter self ->
    audio_stream start = Some s -> vosk_rec start <> None ->
    exists before : Beebo,
      wake_word_loop (quiet ++ f :: rest) start
      = (let (hit, after_check) :=
           _check_wake_word (wake_text answer) (wake_clock f) before in
         if hit then (loop_left, after_check)
         else wake_word_loop rest after_check)
      /\ spotter before = spotter self
      /\ audio_stream before = Some s.
Proof.
  intros M S Q Hf T.
  induction Q as [| q quiet Hq _ IH]; intros start Es As Rs;
    cbn [app wake_word_loop];
    pose proof (f_equal sp_lifecycle Es) as L; cbn in L;
    pose proof (f_equal lc_state L) as Ls; pose proof (f_equal lc_mode L) as Lm;
    cbn in Ls, Lm; rewrite Ls, Lm, S, M; cbn [VoiceMode_eqb andb negb];
    rewrite As.
  - rewrite Hf.
    pose proof (apply_software_gain_spotter data (mic_gain start) start) as G.
    pose proof (apply_software_gain_utterance data (mic_gain start) start) as U.
    destruct (apply_software_gain data (mic_gain start) start)
      as [processed s1].
    cbn [snd] in G, U.
    pose proof (f_equal ut_stream U) as Us. pose proof (f_equal ut_rec U) as Ur.
    cbn in Us, Ur.
    destruct (vosk_rec s1); [| congruence].
    fold (wake_text answer). rewrite T.
    exists s1. split; [reflexivity |]. split; congruence.
  - unfold hears_other in Hq.
    destruct (wake_heard q) as [| d a]; [discriminate Hq |].
    pose proof (apply_software_gain_spotter d (mic_gain start) start) as G.
    pose proof (apply_software_gain_utterance d (mic_gain start) start) as U.
    destruct (apply_software_gain d (mic_gain start) start) as [processed s1].
    cbn [snd] in G, U.
    pose proof (f_equal ut_stream U) as Us. pose proof (f_equal ut_rec U) as Ur.
    cbn in Us, Ur.
    destruct (vosk_rec s1) eqn:R1; [| congruence].
    fold (wake_text a).
    assert (Ab : _check_wake_word (wake_text a) (wake_clock q) s1 = (false, s1)).
    { apply check_wake_word_absent.
      pose proof (f_equal sp_word G) as Gw.
      pose proof (f_equal sp_word Es) as Ew.
      cbn [sp_word spotter] in Gw, Ew.
      rewrite Gw, Ew. now apply negb_true_iff. }
    destruct (truthy (wake_text a)); [rewrite Ab |];
      apply IH; congruence.
Qed.

Lemma check_wake_word_hit_standby (text : string) (t : Q) (self : Beebo) :
  py_in (py_lower (config_wake_word self)) text = true ->
  (wake_word_cooldown self <= t - wake_word_detected_time self)%Q ->
  current_state self = STANDBY ->
  exists self' : Beebo,
    _check_wake_word text t self = (true, self')
    /\ current_state self' = LISTENING
    /\ voice_mode self' = vm_listening
    /\ wake_word_detected_time self' = t
    /\ audio_stream self' = audio_stream self
    /\ after_queue self'
       = (after_queue self ++ [(0, cb_state_var_set LISTENING)])%list.
Proof.
  intros In Cd S. apply Qltb_ge in Cd.
  unfold _check_wake_word. rewrite In, Cd.
  unfold _trigger_wake_response.
  replace (current_state
             (log ("Wake word '" ++ py_lower (config_wake_word self)
                   ++ "' detected: '" ++ text ++ "'")
                (with_wake_word_detected_time t self)))
    with STANDBY by (rewrite <- S; reflexivity).
  eexists. split; [reflexivity |]. repeat split.
Qed.

(** X17. In STANDBY, in wake_word mode, on a device that opens: once
    frames in which other things were heard are followed by a frame that
    holds the wake word, the cooldown having passed, the worker's pass
    ends there; the state is LISTENING and the voice mode listening at
    once, the detection time is that frame's, the session is closed, and
    only the display of the new state is posted to the main loop. *)
Theorem wake_word_in_standby (s : Stream) (quiet : list WakeFrame)
    (f : WakeFrame) (rest : list WakeFrame) (data : list byte)
    (answer : Recognition) (w : VoiceInputs) (self : Beebo) :
  voice_mode self = vm_wake_word -> current_state self = STANDBY ->
  session_open w = opened s -> returns_normally s ->
  wake_frames w = (quiet ++ f :: rest)%list ->
  Forall (fun q => hears_other (py_lower (config_wake_word self)) q = true)
         quiet ->
  wake_heard f = read_returns data answer ->
  truthy (wake_text answer) = true ->
  py_in (py_lower (config_wake_word self)) (wake_text answer) = true ->
  (wake_word_cooldown self <= wake_clock f - wake_word_detected_time self)%Q ->
  exists self' : Beebo,
    _voice_thread_pass w self = (loop_left, self')
    /\ current_state self' = LISTENING
    /\ voice_mode self' = vm_listening
    /\ wake_word_detected_time self' = wake_clock f
    /\ audio_stream self' = None
    /\ after_queue self'
       = (after_queue self ++ [(0, cb_state_var_set LISTENING)])%list.
Proof.
  intros M S O Hs Fr Q Hf T In Cd.
  unfold _voice_thread_pass, _handle_wake_word_detection.
  rewrite M, S, O, Fr.
  pose proof (create_fresh_vosk_session_spotter (opened s) self) as Ef.
  destruct (create_fresh_vosk_session_opened s self) as (fresh & Eo & Uf).
  rewrite Eo in Ef |- *. cbn [snd] in Ef. cbn [negb].
  pose proof (f_equal ut_stream Uf) as As.
  pose proof (f_equal ut_rec Uf) as Rs.
  cbn [ut_stream ut_rec utterance] in As, Rs.
  assert (Rn : vosk_rec fresh <> None) by (rewrite Rs; discriminate).
  destruct (wake_word_loop_hears s f data answer rest self quiet M S Q Hf T
              fresh Ef As Rn) as (before & -> & Eb & Ab).
  pose proof (f_equal sp_word Eb) as Bw.
  pose proof (f_equal sp_detected Eb) as Bd.
  pose proof (f_equal sp_cooldown Eb) as Bc.
  pose proof (f_equal sp_queue Eb) as Bq.
  pose proof (f_equal (fun x => lc_state (sp_lifecycle x)) Eb) as Bs.
  cbn [sp_word sp_detected sp_cooldown sp_queue sp_lifecycle lc_state
       spotter lifecycle] in Bw, Bd, Bc, Bq, Bs.
  destruct (check_wake_word_hit_standby (wake_text answer) (wake_clock f)
              before) as (hit & -> & Hc & Hm & Hd & Ha & Hq).
  { rewrite Bw. exact In. }
  { rewrite Bc, Bd. exact Cd. }
  { rewrite Bs. exact S. }
  exists (destroy_vosk_session hit).
  split; [reflexivity |].
  pose proof (destroy_vosk_session_spotter hit) as D.
  destruct (destroy_vosk_session_closes hit) as [Ds _].
  { intros st E. rewrite Ha, Ab in E. injection E as <-. exact Hs. }
  pose proof (f_equal (fun x => lc_state (sp_lifecycle x)) D) as D1.
  pose proof (f_equal (fun x => lc_mode (sp_lifecycle x)) D) as D2.
  pose proof (f_equal sp_detected D) as D3.
  pose proof (f_equal sp_queue D) as D4.
  cbn [sp_detected sp_queue sp_lifecycle lc_state lc_mode
       spotter lifecycle] in D1, D2, D3, D4.
  repeat split.
  - rewrite D1. exact Hc.
  - rewrite D2. exact Hm.
  - rewrite D3. exact Hd.
  - exact Ds.
  - rewrite D4, Hq, Bq. reflexivity.
Qed.

Lemma wake_word_in_standby_witness :
  let hello :=
    mkWakeFrame (read_returns [x00; x00] (partial_result "hello there")) 999
      open_raises in
  let hey :=
    mkWakeFrame (read_returns [x00; x00] (partial_result "Hey Beebo ")) 1000
      open_raises in
  let w :=
    mkVoiceInputs (opened (mkStream false false)) [hello; hey; hello]
      1000 1000 [] in
  exists self' : Beebo,
    _voice_thread_pass w standby = (loop_left, self')
    /\ current_state self' = LISTENING
    /\ voice_mode self' = vm_listening
    /\ wake_word_detected_time self' = 1000%Q
    /\ audio_stream self' = None
    /\ after_queue self'
       = (after_queue standby ++ [(0, cb_state_var_set LISTENING)])%list.
Proof.
  intros hello hey w.
  apply (wake_word_in_standby (mkStream false false) [hello] hey [hello]
           [x00; x00] (partial_result "Hey Beebo ") w standby);
    try (vm_compute; reflexivity).
  - split; reflexivity.
  - repeat constructor.
  - vm_compute. discriminate.
Defined.


(** ** Words and blank text *)









(** ** What a listening session decides *)















(** ** The response pipeline on every path *)

Lemma summarize_bot_response_context (answer : option string) (m : string)
    (self : Beebo) :
  after_queue (snd (summarize_bot_response answer m self)) = after_queue self
  /\ lifecycle (snd (summarize_bot_response answer m self)) = lifecycle self
  /\ threads (snd (summarize_bot_response answer m self)) = threads self.
Proof. unfold summarize_bot_response. cases; repeat split. Qed.

Lemma summarize_message_lifecycle (answer : option string) (m : string)
    (self : Beebo) :
  lifecycle (snd (summarize_message answer m self)) = lifecycle self
  /\ threads (snd (summarize_message answer m self)) = threads self.
Proof. unfold summarize_message. cases; repeat split. Qed.

(** X19. Every run of [_process_ai_background] posts exactly one phrase
    to be spoken, on each of its paths: the notice that the key is not
    configured, the apology when the request fails, the reply otherwise.
    It starts no thread and leaves the state, the voice mode and the
    wake-word switch alone; without a key it files nothing in the
    context. *)
Theorem ai_background_one_reply (w : ChatWorld) (text : string)
    (self : Beebo) :
  let out := _process_ai_background w text self in
  let phrase :=
    if truthy (py_strip (config_openai_api_key self)) then
      match chat_reply w with
      | Some bot_response => bot_response
      | None => apology
      end
    else "API key not configured" in
  after_queue out = (after_queue self ++ [(0, cb_speak phrase)])%list
  /\ lifecycle out = lifecycle self
  /\ threads out = threads self
  /\ (truthy (py_strip (config_openai_api_key self)) = false ->
      context_memory out = context_memory self).
Proof.
  cbv zeta. unfold _process_ai_background.
  destruct (truthy (py_strip (config_openai_api_key self))) eqn:K; cbn [negb].
  2:{ repeat split. }
  set (filed :=
         if 20 <? word_count (py_strip text)
         then
           let (summary, self0) :=
             summarize_message (user_summary w) (py_strip text) self in
           add_to_context (user_stamp w) summary "user" self0
         else add_to_context (user_stamp w) (py_strip text) "user" self).
  assert (F : after_queue filed = after_queue self
              /\ lifecycle filed = lifecycle self
              /\ threads filed = threads self).
  { subst filed. destruct (20 <? word_count (py_strip text)).
    - destruct (summarize_message_context (user_summary w) (py_strip text)
                  self) as (_ & _ & Q).
      destruct (summarize_message_lifecycle (user_summary w) (py_strip text)
                  self) as (L & T).
      destruct (summarize_message _ _ self) as [summary self1].
      cbn [snd] in Q, L, T. repeat split; assumption.
    - repeat split. }
  clearbody filed. destruct F as (Q & L & T).
  destruct (chat_reply w) as [bot_response |].
  - destruct (summarize_bot_response_context (bot_summary w) bot_response
                (after 0 (cb_speak bot_response) filed)) as (Qb & Lb & Tb).
    destruct (summarize_bot_response _ _ _) as [summarized self2].
    cbn [snd] in Qb, Lb, Tb.
    split; [| split; [| split; [| discriminate]]].
    + rewrite <- Q. exact Qb.
    + rewrite <- L. exact Lb.
    + rewrite <- T. exact Tb.
  - split; [| split; [| split; [| discriminate]]].
    + change (after_queue filed ++ [(0, cb_speak apology)]
              = after_queue self ++ [(0, cb_speak apology)])%list.
      now rewrite Q.
    + exact L.
    + exact T.
Qed.

Lemma ai_background_one_reply_witness :
  let out := _process_ai_background service_down "what time is it" asleep in
  after_queue out
  = (after_queue asleep ++ [(0, cb_speak "API key not configured")])%list
  /\ context_memory out = context_memory asleep.
Proof.
  intro out.
  destruct (ai_background_one_reply service_down "what time is it" asleep)
    as (Q & _ & _ & C).
  split; [exact Q | apply C; reflexivity].
Defined.

(** ** The context as a window *)

(** The entries filed one after the other. *)
Definition file_entries (entries : list ContextEntry) (self : Beebo) : Beebo :=
  fold_left (fun s e => add_to_context (timestamp e) (content e) (role e) s)
            entries self.

Lemma add_to_context_window (e : ContextEntry) (self : Beebo) :
  (List.length (context_memory self) <= max_context_history self)%nat ->
  let filed := (context_memory self ++ [e])%list in
  context_memory (add_to_context (timestamp e) (content e) (role e) self)
  = skipn (List.length filed - max_context_history self) filed
  /\ max_context_history
       (add_to_context (timestamp e) (content e) (role e) self)
     = max_context_history self.
Proof.
  intro B. cbv zeta. unfold add_to_context. destruct e as [t r c].
  cbn [timestamp content role with_context_memory context_memory
       max_context_history rebuild].
  split; [| reflexivity].
  set (filed := (context_memory self ++ [mkEntry t r c])%list).
  assert (Lf : List.length filed = S (List.length (context_memory self)))
    by (subst filed; rewrite length_app; cbn [List.length]; lia).
  clearbody filed.
  destruct (Nat.ltb_spec (max_context_history self) (List.length filed))
    as [L | L].
  - replace (List.length filed - max_context_history self)%nat
      with 1%nat by lia.
    now destruct filed.
  - replace (List.length filed - max_context_history self)%nat
      with 0%nat by lia.
    reflexivity.
Qed.

(** X20. The context is a window on the conversation: when it holds no
    more than [max_context_history] entries, then after any number of
    entries are filed it holds the last [max_context_history] of all of
    them, the oldest first, and the bound still holds. *)
Theorem context_is_a_window (entries : list ContextEntry) (self : Beebo) :
  (List.length (context_memory self) <= max_context_history self)%nat ->
  let all := (context_memory self ++ entries)%list in
  context_memory (file_entries entries self)
  = skipn (List.length all - max_context_history self) all
  /\ (List.length (context_memory (file_entries entries self))
      <= max_context_history self)%nat.
Proof.
  cbv zeta. revert self.
  induction entries as [| e rest IH]; intros self B.
  - cbn [file_entries fold_left]. rewrite app_nil_r.
    replace (List.length (context_memory self) - max_context_history self)%nat
      with 0%nat by lia.
    split; [reflexivity | exact B].
  - change (file_entries (e :: rest) self)
      with (file_entries rest
              (add_to_context (timestamp e) (content e) (role e) self)).
    destruct (add_to_context_window e self B) as [W M]. cbv zeta in W.
    set (next := add_to_context (timestamp e) (content e) (role e) self) in *.
    clearbody next.
    assert (Bn : (List.length (context_memory next)
                  <= max_context_history next)%nat).
    { rewrite W, M, length_skipn, length_app. cbn [List.length]. lia. }
    destruct (IH next Bn) as [E Lb]. rewrite M in E, Lb.
    split; [| exact Lb].
    rewrite E, W.
    set (k := (List.length (context_memory self ++ [e])
               - max_context_history self)%nat).
    assert (Hk : (k <= List.length (context_memory self ++ [e]))%nat)
      by (subst k; lia).
    replace (skipn k (context_memory self ++ [e]) ++ rest)%list
      with (skipn k ((context_memory self ++ [e]) ++ rest)).
    2:{ rewrite skipn_app.
        replace (k - List.length (context_memory self ++ [e]))%nat
          with 0%nat by lia.
        reflexivity. }
    rewrite skipn_skipn, length_skipn.
    rewrite <- app_assoc. cbn [app].
    f_equal. subst k.
    rewrite !length_app in *. cbn [List.length] in *. lia.
Qed.

Lemma context_is_a_window_witness :
  let entries :=
    map (fun n => mkEntry "10:15:00" "user" (String (ascii_of_nat (65 + n)) ""))
        (seq 0 17) in
  context_memory (file_entries entries configured)
  = skipn 2 entries
  /\ (List.length (context_memory (file_entries entries configured))
      <= 15)%nat.
Proof.
  intro entries.
  apply (context_is_a_window entries configured).
  simpl. lia.
Defined.

(** ** The recoloured face *)

Lemma target_color_blue (v : Q) :
  (0 <= v)%Q -> (v <= 1)%Q ->
  let '(r, g, b) := target_color v in r < b /\ g < b.
Proof.
  intros H0 H1. unfold target_color, base_color, peak_color.
  destruct (interpolate_falling 99 95 ltac:(lia) ltac:(lia) v v
              ltac:(lia) H0 (Qle_refl v) H1) as (R1 & _ & _).
  destruct (interpolate_rising 155 205 ltac:(lia) ltac:(lia) v v
              ltac:(lia) H0 (Qle_refl v) H1) as (_ & _ & G3).
  destruct (interpolate_falling 255 220 ltac:(lia) ltac:(lia) v v
              ltac:(lia) H0 (Qle_refl v) H1) as (_ & _ & B3).
  lia.
Qed.


(** X22. For a volume between 0 and 1 the target colour is itself one
    that is recoloured, so recolouring a recoloured picture gives what
    recolouring the picture gives: the pixels that change are the same at
    every volume. *)
Theorem recolouring_composes (image : Image) (v w : Q) :
  (0 <= v)%Q -> (v <= 1)%Q ->
  apply_volume_color (apply_volume_color image v) w
  = apply_volume_color image w.
Proof.
  intros H0 H1. pose proof (target_color_blue v H0 H1) as B.
  unfold apply_volume_color.
  destruct (target_color v) as [[r g] b].
  destruct (target_color w) as [[r' g'] b'].
  destruct B as [Br Bg].
  rewrite map_map. apply map_ext. intros [[[p0 p1] p2] p3].
  destruct (0 <? p3) eqn:A; cbn [andb]; [| now rewrite A].
  destruct ((p0 <? p2) && (p1 <? p2)) eqn:C.
  - rewrite A. cbn [andb].
    apply Z.ltb_lt in Br, Bg. now rewrite Br, Bg.
  - rewrite A. cbn [andb]. now rewrite C.
Qed.

Lemma recolouring_composes_witness :
  apply_volume_color (apply_volume_color picture (1 # 2)) 1
  = apply_volume_color picture 1.
Proof.
  apply (recolouring_composes picture (1 # 2) 1); unfold Qle; simpl; lia.
Defined.

(** ** The transition clips *)




(** ** Voice commands *)

(** X24. A torch command heard while a phrase is being spoken still
    switches the torch, and stamps it when it is switched on, but says
    nothing: no state change, no thread and no call posted; the object only
    has its activity time renewed. *)
Theorem torch_command_while_speaking (t_activity t_torch t_state : Q)
    (text : string) (torch : Torch) (self : Beebo) :
  is_speaking self = true ->
  let text_lower := py_strip (py_lower text) in
  (py_in "light on" text_lower || py_in "torch on" text_lower = true ->
   process_voice_input t_activity t_torch t_state text torch self
   = (mkTorch 100 (Some t_torch), with_last_activity_time t_activity self))
  /\ (py_in "light on" text_lower || py_in "torch on" text_lower = false ->
      py_in "light off" text_lower || py_in "torch off" text_lower = true ->
      process_voice_input t_activity t_torch t_state text torch self
      = (mkTorch 0 (torch_start_time torch),
         with_last_activity_time t_activity self)).
Proof.
  intros Sp. cbv zeta. unfold process_voice_input.
  assert (Q1 : forall phrase,
             speak t_state phrase (with_last_activity_time t_activity self)
             = with_last_activity_time t_activity self)
    by (intro phrase; unfold speak;
        change (is_speaking (with_last_activity_time t_activity self))
          with (is_speaking self); now rewrite Sp).
  split.
  - intros On. rewrite On, Q1. reflexivity.
  - intros On Off. rewrite On, Off, Q1. reflexivity.
Qed.

Lemma torch_command_while_speaking_witness :
  (process_voice_input 2001 2002 2003 "Turn the LIGHT ON please"
     (mkTorch 0 None) talking
   = (mkTorch 100 (Some 2002%Q), with_last_activity_time 2001 talking))
  /\ (process_voice_input 2001 2002 2003 " torch off "
        (mkTorch 100 (Some 1500%Q)) talking
      = (mkTorch 0 (Some 1500%Q), with_last_activity_time 2001 talking)).
Proof.
  split.
  - apply (torch_command_while_speaking 2001 2002 2003
             "Turn the LIGHT ON please" (mkTorch 0 None) talking);
      vm_compute; reflexivity.
  - apply (torch_command_while_speaking 2001 2002 2003 " torch off "
             (mkTorch 100 (Some 1500%Q)) talking); vm_compute; reflexivity.
Defined.




(** ** What a listening session records *)

(** The attributes the recording depends on. *)
Record Recording : Type := mkRecording {
  rc_stream : option Stream;
  rc_gain : Q;
  rc_files : list (list byte);
  rc_buffer : list (list byte)
}.

Definition recording (self : Beebo) : Recording :=
  mkRecording (audio_stream self) (mic_gain self) (stt_files self)
    (current_audio_buffer self).

(** The chunk a frame adds to the recording: its bytes after the gain
    [g], nothing when the read raises. *)
Definition gained (g : Q) (self : Beebo) (f : ListenFrame)
  : list (list byte) :=
  match listen_heard f with
  | read_returns data _ => [fst (apply_software_gain data g self)]
  | read_raises => []
  end.

(** What [save_recorded_audio] adds to the saved files for a buffer. *)
Definition saved (buffer : list (list byte)) : list (list byte) :=
  match buffer with
  | [] => []
  | _ => [List.concat buffer]
  end.

Lemma apply_software_gain_bytes (d : list byte) (g : Q) (a b : Beebo) :
  fst (apply_software_gain d g a) = fst (apply_software_gain d g b).
Proof. unfold apply_software_gain. now destruct (frombuffer_int16 d). Qed.

Lemma apply_software_gain_recording (d : list byte) (g : Q) (self : Beebo) :
  recording (snd (apply_software_gain d g self)) = recording self.
Proof. unfold apply_software_gain. cases; reflexivity. Qed.

Lemma check_speech_timeouts_recording (t : Q) (self : Beebo) :
  recording (snd (_check_speech_timeouts t self)) = recording self.
Proof. unfold _check_speech_timeouts. cases; reflexivity. Qed.

Lemma process_partial_speech_recording (p : string) (t : Q) (self : Beebo) :
  recording (_process_partial_speech p t self) = recording self.
Proof. unfold _process_partial_speech. cases; reflexivity. Qed.

Lemma process_final_speech_recording (p : string) (self : Beebo) :
  recording (_process_final_speech p self) = recording self.
Proof. unfold _process_final_speech. cases; reflexivity. Qed.

Lemma create_fresh_vosk_session_recording (s : Stream) (self : Beebo) :
  recording (snd (create_fresh_vosk_session (opened s) self))
  = mkRecording (Some s) (mic_gain self) (stt_files self) [].
Proof.
  unfold create_fresh_vosk_session, destroy_vosk_session. cases; reflexivity.
Qed.

Lemma create_fresh_vosk_session_fails (o : OpenOutcome) (self : Beebo) :
  o = open_raises \/ o = recognizer_raises ->
  fst (create_fresh_vosk_session o self) = false
  /\ rc_files (recording (snd (create_fresh_vosk_session o self)))
     = stt_files self
  /\ rc_buffer (recording (snd (create_fresh_vosk_session o self)))
     = current_audio_buffer self.
Proof.
  intros [-> | ->]; unfold create_fresh_vosk_session, destroy_vosk_session;
    cases; repeat split.
Qed.

Lemma finally_recording (self : Beebo) :
  let left := destroy_vosk_session (save_recorded_audio self) in
  current_audio_buffer left = current_audio_buffer self
  /\ stt_files left
     = (stt_files self ++ saved (current_audio_buffer self))%list.
Proof.
  unfold destroy_vosk_session, save_recorded_audio, saved.
  destruct (current_audio_buffer self) eqn:B; cases; cbn;
    rewrite ?B, ?app_nil_r; split; reflexivity.
Qed.

Lemma listening_turn_recording (f : ListenFrame) (s : Stream)
    (ref self : Beebo) :
  audio_stream self = Some s ->
  recording (snd (listening_turn f self))
  = mkRecording (Some s) (mic_gain self) (stt_files self)
      (current_audio_buffer self ++ gained (mic_gain self) ref f).
Proof.
  intro A. unfold listening_turn, gained. rewrite A.
  destruct (listen_heard f) as [| data answer].
  - rewrite check_speech_timeouts_recording, app_nil_r.
    unfold recording. now rewrite A.
  - rewrite (apply_software_gain_bytes data (mic_gain self) ref self).
    pose proof (apply_software_gain_recording data (mic_gain self) self) as G.
    destruct (apply_software_gain data (mic_gain self) self)
      as [processed self1].
    cbn [fst snd] in *.
    set (kept := with_current_audio_buffer _ self1).
    assert (K : recording kept
                = mkRecording (Some s) (mic_gain self) (stt_files self)
                    (current_audio_buffer self ++ [processed])).
    { pose proof (f_equal rc_stream G) as G1.
      pose proof (f_equal rc_gain G) as G2.
      pose proof (f_equal rc_files G) as G3.
      pose proof (f_equal rc_buffer G) as G4.
      cbn [rc_stream rc_gain rc_files rc_buffer recording] in G1, G2, G3, G4.
      subst kept. unfold recording.
      change (audio_stream (with_current_audio_buffer _ self1))
        with (audio_stream self1).
      change (mic_gain (with_current_audio_buffer _ self1))
        with (mic_gain self1).
      change (stt_files (with_current_audio_buffer _ self1))
        with (stt_files self1).
      change (current_audio_buffer (with_current_audio_buffer _ self1))
        with (current_audio_buffer self1 ++ [processed])%list.
      now rewrite G1, G2, G3, G4, A. }
    clearbody kept.
    destruct (vosk_rec kept);
      [| now rewrite check_speech_timeouts_recording].
    destruct answer as [text | partial].
    + destruct (truthy (py_strip text));
        [| now rewrite check_speech_timeouts_recording].
      cbn [snd]. now rewrite process_final_speech_recording.
    + rewrite check_speech_timeouts_recording.
      destruct (truthy (py_strip partial)); [| exact K].
      now rewrite process_partial_speech_recording.
Qed.

Lemma listening_loop_recording (s : Stream) (ref : Beebo) (g : Q)
    (files : list (list byte)) (frames : list ListenFrame) :
  forall (start out : Beebo) (buffer : list (list byte)),
    recording start = mkRecording (Some s) g files buffer ->
    listening_loop frames start = (loop_left, out) ->
    exists taken rest : list ListenFrame,
      frames = (taken ++ rest)%list
      /\ recording out
         = mkRecording (Some s) g files
             (buffer ++ flat_map (gained g ref) taken).
Proof.
  induction frames as [| f more IH]; intros start out buffer R;
    cbn [listening_loop]; destruct (current_state start);
    try discriminate;
    try (intro E; injection E as <-; exists [], []; cbn [app flat_map];
         rewrite app_nil_r; split; [reflexivity | exact R]);
    try (intro E; injection E as <-; exists [], (f :: more);
         cbn [app flat_map]; rewrite app_nil_r; split; [reflexivity | exact R]).
  pose proof (f_equal rc_stream R) as R1. pose proof (f_equal rc_gain R) as R2.
  pose proof (f_equal rc_files R) as R3. pose proof (f_equal rc_buffer R) as R4.
  cbn [rc_stream rc_gain rc_files rc_buffer recording] in R1, R2, R3, R4.
  pose proof (listening_turn_recording f s ref start R1) as T.
  rewrite R2, R3, R4 in T.
  destruct (listening_turn f start) as [[|] next]; cbn [snd] in T; intro E.
  - injection E as <-. exists [f], more. cbn [app flat_map].
    rewrite app_nil_r. split; [reflexivity | exact T].
  - destruct (IH next out _ T E) as (taken & rest & -> & Ro).
    exists (f :: taken), rest. split; [reflexivity |].
    rewrite Ro. cbn [flat_map]. now rewrite app_assoc.
Qed.

(** X26. A listening session that opens its audio session and ends has
    recorded exactly the frames it read, each after the gain, in order,
    and nothing from before: it read a beginning of the frames and, when
    one of them gave bytes, it saved one file, their concatenation, after
    the files saved earlier; when none did, it saved nothing. *)
Theorem session_recording (s : Stream) (t_start t_word : Q)
    (frames : list ListenFrame) (self self' : Beebo) :
  current_state self = LISTENING ->
  _handle_speech_recognition (opened s) t_start t_word frames self
  = (loop_left, self') ->
  exists taken rest : list ListenFrame,
    frames = (taken ++ rest)%list
    /\ current_audio_buffer self'
       = flat_map (gained (mic_gain self) self) taken
    /\ stt_files self'
       = (stt_files self
          ++ saved (flat_map (gained (mic_gain self) self) taken))%list.
Proof.
  intro S. unfold _handle_speech_recognition. rewrite S.
  pose proof (create_fresh_vosk_session_recording s self) as F.
  destruct (create_fresh_vosk_session_opened s self) as (fresh & Eo & _).
  rewrite Eo in F |- *. cbn [snd] in F. cbn [negb].
  match goal with
  | |- context [listening_loop frames ?s0] => set (start := s0)
  end.
  assert (R : recording start
              = mkRecording (Some s) (mic_gain self) (stt_files self) [])
    by (rewrite <- F; reflexivity).
  clearbody start.
  destruct (listening_loop frames start) as [[|] out] eqn:L;
    intro E; [| discriminate E].
  injection E as <-.
  destruct (listening_loop_recording s self (mic_gain self) (stt_files self)
              frames start out [] R L) as (taken & rest & Fr & Ro).
  cbn [app] in Ro.
  pose proof (f_equal rc_files Ro) as Ro3.
  pose proof (f_equal rc_buffer Ro) as Ro4.
  cbn [rc_files rc_buffer recording] in Ro3, Ro4.
  destruct (finally_recording out) as [B Sv]. cbv zeta in B, Sv.
  exists taken, rest. split; [exact Fr |].
  split; [now rewrite B | now rewrite Sv, Ro3, Ro4].
Qed.

Lemma session_recording_witness :
  let frames :=
    [mkListenFrame 1001 (read_returns [x01; x00] (partial_result "turn on"));
     mkListenFrame 1002 read_raises;
     mkListenFrame 1003
       (read_returns [x02; x00] (final_result "turn on the light"));
     mkListenFrame 1004 (read_returns [x03; x00] (partial_result "again"))] in
  let out :=
    snd (_handle_speech_recognition (opened (mkStream false false)) 1000 1000
           frames heard_in_standby) in
  exists taken rest : list ListenFrame,
    frames = (taken ++ rest)%list
    /\ current_audio_buffer out
       = flat_map (gained (mic_gain heard_in_standby) heard_in_standby) taken
    /\ stt_files out
       = (stt_files heard_in_standby
          ++ saved (flat_map (gained (mic_gain heard_in_standby)
                                heard_in_standby) taken))%list.
Proof.
  intros frames out.
  apply (session_recording (mkStream false false) 1000 1000 frames
           heard_in_standby out); vm_compute; reflexivity.
Defined.

(** X27. A session that does not get as far as opening, because the
    state is not LISTENING or because the recogniser or the device fails,
    still runs the [finally] block on the buffer left by the session
    before: it is left with the buffer as it was and, when that buffer is
    not empty, has saved it once more as a new file. *)
Theorem unopened_session_saves_old_recording (o : OpenOutcome)
    (t_start t_word : Q) (frames : list ListenFrame) (self : Beebo) :
  current_state self <> LISTENING \/ o = open_raises \/ o = recognizer_raises ->
  let out := snd (_handle_speech_recognition o t_start t_word frames self) in
  fst (_handle_speech_recognition o t_start t_word frames self) = loop_left
  /\ current_audio_buffer out = current_audio_buffer self
  /\ stt_files out
     = (stt_files self ++ saved (current_audio_buffer self))%list.
Proof.
  intro H. cbv zeta. unfold _handle_speech_recognition.
  assert (Idle : forall a : Beebo,
             current_audio_buffer a = current_audio_buffer self ->
             stt_files a = stt_files self ->
             current_audio_buffer
               (destroy_vosk_session (save_recorded_audio a))
             = current_audio_buffer self
             /\ stt_files (destroy_vosk_session (save_recorded_audio a))
                = (stt_files self ++ saved (current_audio_buffer self))%list).
  { intros a Ba Fa. destruct (finally_recording a) as [B Sv].
    cbv zeta in B, Sv. now rewrite B, Sv, Ba, Fa. }
  destruct (SystemState_eqb (current_state self) LISTENING) eqn:Q.
  - apply SystemState_eqb_eq in Q. rewrite Q.
    destruct H as [H | H]; [contradiction |].
    destruct (create_fresh_vosk_session_fails o self H) as (Ok & Fl & Bf).
    destruct (create_fresh_vosk_session o self) as [ok fresh].
    cbn [fst snd rc_files rc_buffer recording] in Ok, Fl, Bf. subst ok.
    cbn [negb fst snd]. split; [reflexivity |].
    apply Idle; assumption.
  - destruct (current_state self); try discriminate Q;
      (cbn [fst snd]; split; [reflexivity | now apply Idle]).
Qed.

Lemma unopened_session_saves_old_recording_witness :
  let previous :=
    snd (_handle_speech_recognition (opened (mkStream false false)) 1000 1000
           [mkListenFrame 1001
              (read_returns [x01; x00] (final_result "turn on the light"))]
           heard_in_standby) in
  let out := snd (_handle_speech_recognition open_raises 1010 1010 [] previous) in
  fst (_handle_speech_recognition open_raises 1010 1010 [] previous) = loop_left
  /\ current_audio_buffer out = current_audio_buffer previous
  /\ stt_files out
     = (stt_files previous ++ saved (current_audio_buffer previous))%list.
Proof.
  intro previous.
  apply (unopened_session_saves_old_recording open_raises 1010 1010 [] previous).
  right. left. reflexivity.
Defined.
